(** * LiveSlides: the room page resolver and the live slide synchronizer

    A shallow embedding of the room page (the [Page] component, which
    derives [isPresenter] from the query string) and of
    [components/LiveSlides.tsx] (the React component that owns the slide
    index, the follow-live toggle and the realtime channel), followed by the
    properties of the synchronizer stated in the specification.

    Conventions of the embedding.

    - A JavaScript number is a [number]: NaN, the two infinities, or a finite
      value kept as an exact rational.  Comparison, [Math.max] and
      [Math.min] are those of doubles, and so are [index + 1], [index - 1]
      and [slides.length - 1] on the integers the component stores; the
      rounding of other sums, overflow and the sign of zero are not
      reproduced.
    - A JavaScript string is a [string] of bytes (UTF-8).
    - What the channel delivers is JSON-decoded: a [value] is undefined (an
      absent field), null, a boolean, a number, a string, or an object.
      JSON has no literal for NaN or the infinities, so a received number is
      finite; NaN and the infinities only come out of [Number(...)].
    - A React event handler or channel callback reads the props and state of
      the render that created it and issues calls ([setIndex],
      [setLiveFollow], [channel.send], [channel.track], ...).  A handler is
      therefore a function from what its closure captured to the list of
      calls it makes, in order; [step] applies the queued state updates and
      runs the effects whose dependencies changed. *)

From Stdlib Require Import Bool List ZArith QArith Qminmax Qreduction.
From Stdlib Require Import String Ascii Lia.
From Stdlib Require Import Permutation Lqa.
From Stdlib Require DecimalString.
Import ListNotations.

Local Open Scope Q_scope.

(** ** JavaScript numbers *)

Module JS.

Inductive number : Type :=
| NaN
| NegInfinity
| Fin (q : Q)
| PosInfinity.

Definition zero : number := Fin 0.
Definition one : number := Fin 1.

(** [a < b]; false as soon as one side is NaN. *)
Definition lt (a b : number) : bool :=
  match a, b with
  | NaN, _ | _, NaN => false
  | NegInfinity, NegInfinity => false
  | NegInfinity, _ => true
  | _, NegInfinity => false
  | PosInfinity, _ => false
  | Fin _, PosInfinity => true
  | Fin x, Fin y => match x ?= y with Lt => true | _ => false end
  end.

(** [Object.is]-style sameness of two numbers (NaN is the same as NaN);
    React compares state and dependencies with it. *)
Definition same (a b : number) : bool :=
  match a, b with
  | NaN, NaN => true
  | NegInfinity, NegInfinity => true
  | PosInfinity, PosInfinity => true
  | Fin x, Fin y => Qeq_bool x y
  | _, _ => false
  end.

Definition isNaN (a : number) : bool :=
  match a with NaN => true | _ => false end.

Definition neg (a : number) : number :=
  match a with
  | NaN => NaN
  | NegInfinity => PosInfinity
  | PosInfinity => NegInfinity
  | Fin x => Fin (- x)
  end.

(** [a + b] *)
Definition add (a b : number) : number :=
  match a, b with
  | NaN, _ | _, NaN => NaN
  | NegInfinity, PosInfinity | PosInfinity, NegInfinity => NaN
  | NegInfinity, _ | _, NegInfinity => NegInfinity
  | PosInfinity, _ | _, PosInfinity => PosInfinity
  | Fin x, Fin y => Fin (x + y)
  end.

(** [a - b] *)
Definition sub (a b : number) : number := add a (neg b).

(** [Math.max(...xs)]: start from -Infinity, return NaN at the first NaN,
    replace the running value by a strictly greater one. *)
Fixpoint max_from (highest : number) (xs : list number) : number :=
  match xs with
  | [] => highest
  | x :: rest =>
      if isNaN x then NaN
      else max_from (if lt highest x then x else highest) rest
  end.

Definition Math_max (xs : list number) : number := max_from NegInfinity xs.

(** [Math.min(...xs)]: the same from +Infinity with strictly smaller. *)
Fixpoint min_from (lowest : number) (xs : list number) : number :=
  match xs with
  | [] => lowest
  | x :: rest =>
      if isNaN x then NaN
      else min_from (if lt x lowest then x else lowest) rest
  end.

Definition Math_min (xs : list number) : number := min_from PosInfinity xs.

(** [xs.length] as a number. *)
Definition length_of {A : Type} (xs : list A) : number :=
  Fin (inject_Z (Z.of_nat (List.length xs))).


(** ** JavaScript strings *)

Local Open Scope string_scope.

Definition code (c : ascii) : nat := nat_of_ascii c.

Definition between (lo hi n : nat) : bool := (lo <=? n)%nat && (n <=? hi)%nat.

(** One character of [String.prototype.toLowerCase].  The letters A-Z are
    mapped to a-z.  Bytes of other characters are kept: the strings this
    program compares against are ASCII, and no character outside A-Z
    lowercases to one of their letters. *)
Definition lower_char (c : ascii) : ascii :=
  if between 65 90 (code c) then ascii_of_nat (code c + 32) else c.

Fixpoint toLowerCase (s : string) : string :=
  match s with
  | EmptyString => EmptyString
  | String c rest => String (lower_char c) (toLowerCase rest)
  end.

(** [xs.includes(s)] on an array of strings. *)
Definition includes (xs : list string) (s : string) : bool :=
  existsb (String.eqb s) xs.

(** *** StringToNumber

    [Number(s)] on a string follows the StringNumericLiteral grammar:
    white space around an optional literal; the empty literal is 0; a
    literal is a radix-prefixed integer ([0x], [0o], [0b], unsigned) or an
    optionally signed [Infinity] or decimal with optional fraction and
    exponent.  Anything else is NaN.  The value of a literal is kept
    exact: it is not rounded to a double, nor sent to an infinity or to 0
    when it is out of their range. *)

(** White space and line terminators, as UTF-8 sequences of one, two and
    three bytes: TAB LF VT FF CR SP; U+00A0; U+1680, U+2000..U+200A, U+2028,
    U+2029, U+202F, U+205F, U+3000, U+FEFF. *)
Definition ws1 (a : ascii) : bool :=
  between 9 13 (code a) || (code a =? 32)%nat.

Definition ws2 (a b : ascii) : bool :=
  (code a =? 194)%nat && (code b =? 160)%nat.

Definition ws3 (a b c : ascii) : bool :=
  let '(x, y, z) := (code a, code b, code c) in
  ((x =? 225) && (y =? 154) && (z =? 128))%nat
  || ((x =? 226)%nat && (y =? 128)%nat
      && (between 128 138 z || between 168 169 z || (z =? 175)%nat))
  || ((x =? 226) && (y =? 129) && (z =? 159))%nat
  || ((x =? 227) && (y =? 128) && (z =? 128))%nat
  || ((x =? 239) && (y =? 187) && (z =? 191))%nat.

Fixpoint skip_ws (s : string) : string :=
  match s with
  | String a r1 =>
      if ws1 a then skip_ws r1
      else
        match r1 with
        | String b r2 =>
            if ws2 a b then skip_ws r2
            else
              match r2 with
              | String c r3 => if ws3 a b c then skip_ws r3 else s
              | EmptyString => s
              end
        | EmptyString => s
        end
  | EmptyString => s
  end.

Definition blank (s : string) : bool :=
  match skip_ws s with EmptyString => true | _ => false end.

(** The value of a digit in the given radix, if it is one. *)
Definition digit_of (radix : nat) (a : ascii) : option Z :=
  let n := code a in
  let v :=
    if between 48 57 n then Some (n - 48)%nat
    else if between 97 102 n then Some (n - 87)%nat
    else if between 65 70 n then Some (n - 55)%nat
    else None in
  match v with
  | Some d => if (d <? radix)%nat then Some (Z.of_nat d) else None
  | None => None
  end.

(** Longest run of digits at the head of [s]: the number read so far, how
    many digits were read, and what follows. *)
Fixpoint digits_from (radix : nat) (acc : Z) (count : nat) (s : string)
  : Z * nat * string :=
  match s with
  | String a rest =>
      match digit_of radix a with
      | Some d => digits_from radix (acc * Z.of_nat radix + d)%Z (S count) rest
      | None => (acc, count, s)
      end
  | EmptyString => (acc, count, s)
  end.

Definition digits (radix : nat) (s : string) : Z * nat * string :=
  digits_from radix 0%Z 0%nat s.

(** [m * 10^e] as a rational in lowest terms. *)
Definition scale10 (m e : Z) : Q :=
  Qred (if (0 <=? e)%Z then inject_Z (m * 10 ^ e)
        else Qmake m (Z.to_pos (10 ^ (- e)))).

(** ExponentPart: [e] or [E], an optional sign, at least one digit.  When
    no well-formed exponent follows, nothing is consumed. *)
Definition exponent_part (s : string) : Z * string :=
  match s with
  | String a rest =>
      if (code a =? 101)%nat || (code a =? 69)%nat then
        let '(sign, body) :=
          match rest with
          | String b r =>
              if (code b =? 43)%nat then (1%Z, r)
              else if (code b =? 45)%nat then ((-1)%Z, r)
              else (1%Z, rest)
          | EmptyString => (1%Z, rest)
          end in
        let '(e, n, after) := digits 10 body in
        if (n =? 0)%nat then (0%Z, s) else ((sign * e)%Z, after)
      else (0%Z, s)
  | EmptyString => (0%Z, s)
  end.

(** StrUnsignedDecimalLiteral without [Infinity]:
    [D+ . D* E?], [. D+ E?] or [D+ E?]. *)
Definition unsigned_decimal (s : string) : option (Q * string) :=
  let '(ip, ni, r1) := digits 10 s in
  let '(fp, nf, r2) :=
    match r1 with
    | String a r => if (code a =? 46)%nat then digits 10 r else (0%Z, 0%nat, r1)
    | EmptyString => (0%Z, 0%nat, r1)
    end in
  if ((ni =? 0) && (nf =? 0))%nat then None
  else
    let '(e, r3) := exponent_part r2 in
    Some (scale10 (ip * 10 ^ Z.of_nat nf + fp) (e - Z.of_nat nf), r3).

Definition strip_prefix (p s : string) : option string :=
  if String.prefix p s
  then Some (String.substring (String.length p) (String.length s - String.length p) s)
  else None.

Definition unsigned_literal (s : string) : option (number * string) :=
  match strip_prefix "Infinity" s with
  | Some rest => Some (PosInfinity, rest)
  | None =>
      match unsigned_decimal s with
      | Some (q, rest) => Some (Fin q, rest)
      | None => None
      end
  end.

Definition radix_literal (radix : nat) (s : string) : option (number * string) :=
  let '(v, n, rest) := digits radix s in
  if (n =? 0)%nat then None else Some (Fin (inject_Z v), rest).

Definition numeric_literal (s : string) : option (number * string) :=
  match s with
  | String a (String b rest) =>
      if (code a =? 48)%nat && ((code b =? 120) || (code b =? 88))%nat
      then radix_literal 16 rest
      else if (code a =? 48)%nat && ((code b =? 111) || (code b =? 79))%nat
      then radix_literal 8 rest
      else if (code a =? 48)%nat && ((code b =? 98) || (code b =? 66))%nat
      then radix_literal 2 rest
      else if (code a =? 43)%nat then unsigned_literal (String b rest)
      else if (code a =? 45)%nat then
        match unsigned_literal (String b rest) with
        | Some (v, r) => Some (neg v, r)
        | None => None
        end
      else unsigned_literal s
  | _ => unsigned_literal s
  end.

Definition StringToNumber (s : string) : number :=
  let body := skip_ws s in
  match body with
  | EmptyString => zero
  | _ =>
      match numeric_literal body with
      | Some (v, rest) => if blank rest then v else NaN
      | None => NaN
      end
  end.

(** *** Values received from outside *)

Inductive value : Type :=
| VUndefined
| VNull
| VBoolean (b : bool)
| VNumber (q : Q)
| VString (s : string)
| VObject (prim : string).
(** [VObject prim] is an object or an array; [prim] is the string its
    conversion to a primitive produces (["[object Object]"] for a plain
    object, the joined elements for an array). *)

(** [Number(v)] *)
Definition Number (v : value) : number :=
  match v with
  | VUndefined => NaN
  | VNull => zero
  | VBoolean true => one
  | VBoolean false => zero
  | VNumber q => Fin q
  | VString s => StringToNumber s
  | VObject prim => StringToNumber prim
  end.

(** [v ?? d] *)
Definition nullish (v d : value) : value :=
  match v with
  | VUndefined | VNull => d
  | _ => v
  end.

(** [v === s] for a string literal [s] *)
Definition is_string (v : value) (s : string) : bool :=
  match v with
  | VString x => String.eqb x s
  | _ => false
  end.

End JS.

Import JS.

Local Open Scope string_scope.

(** ** The room page resolver ([Page]) *)

Module Page.

(** [typeof presenter !== "undefined" &&
     ["1", "true", "yes"].includes(String(presenter).toLowerCase())];
    the query parameter is a string when present. *)
Definition isPresenter (presenter : option string) : bool :=
  match presenter with
  | None => false
  | Some s => includes ["1"; "true"; "yes"] (toLowerCase s)
  end.

End Page.

(** ** The live slide synchronizer ([LiveSlides]) *)

Record Slide : Type := { src : string; alt : option string }.

Record Props : Type := {
  roomId : string;
  slides : list Slide;
  isPresenter : bool
}.

(** The two [useState] cells as one render sees them. *)
Record Render : Type := {
  index : number;
  liveFollow : bool
}.

(** A channel created by the channel effect.  Its callbacks are closures of
    the render in which the effect ran: they keep seeing that render's props
    and state until the effect runs again, which its dependency array
    [[roomId, isPresenter, userKey]] allows only when the room or the role
    changes. *)
Record Channel : Type := {
  topic : string;
  presenceKey : string;
  c_props : Props;
  c_state : Render
}.

(** What a handler does, in order. *)
Inductive call : Type :=
| setIndex (i : number)
| setLiveFollow (b : bool)
| send (on : string) (i : number)
| track (on : string) (role : string) (i : number)
| subscribe (on : string) (key : string)
| unsubscribe (on : string).
(** [send on i] is [channel.send({ type: "broadcast", event: "slide",
    payload: { index: i } })] and [track on role i] is
    [channel.track({ role, index: i })], on the channel of topic [on]. *)

(** One entry of [channel.presenceState()]: the tracked object [p], of
    which the component reads [p?.role] and [p?.index]. *)
Record Presence : Type := {
  p_role : value;
  p_index : value
}.

(** [channel.presenceState()]: presence key to the list of its entries. *)
Definition PresenceState : Type := list (string * list Presence).

Definition Object_values (state : PresenceState) : list (list Presence) :=
  map snd state.

Definition flat {A : Type} (xss : list (list A)) : list A := List.concat xss.

(** The argument of the broadcast callback: [payload.payload] is absent or
    an object with an [index] field, itself possibly absent. *)
Definition Message : Type := option value.

(** [payload.payload?.index] *)
Definition payload_index (payload : Message) : value :=
  match payload with
  | None => VUndefined
  | Some v => v
  end.

(** [const bound = (i) => Math.max(0, Math.min(slides.length - 1, i))] *)
Definition bound (p : Props) (i : number) : number :=
  Math_max [zero; Math_min [sub (length_of (slides p)) one; i]].

(** [const go = (i) => setIndex(bound(i))] *)
Definition go (p : Props) (i : number) : list call :=
  [setIndex (bound p i)].

(** [broadcast]: nothing without a channel in [channelRef.current]. *)
Definition broadcast (channelRef : option Channel) (i : number) : list call :=
  match channelRef with
  | None => []
  | Some channel => [send (topic channel) i]
  end.

Definition next (p : Props) (r : Render) (channelRef : option Channel)
  : list call :=
  let i := bound p (add (index r) one) in
  setIndex i :: (if isPresenter p then broadcast channelRef i else []).

Definition prev (p : Props) (r : Render) (channelRef : option Channel)
  : list call :=
  let i := bound p (sub (index r) one) in
  setIndex i :: (if isPresenter p then broadcast channelRef i else []).

Definition role_of (p : Props) : string :=
  if isPresenter p then "presenter" else "viewer".

Definition reSync (p : Props) (r : Render) (channelRef : option Channel)
  : list call :=
  setLiveFollow true ::
  match channelRef with
  | None => []
  | Some channel => [track (topic channel) (role_of p) (index r)]
  end.

(** The checkbox: [onChange={(e) => setLiveFollow(e.target.checked)}] *)
Definition onChange (checked : bool) : list call :=
  [setLiveFollow checked].

(** The [keydown] listener; the key effect installs it for a presenter
    only. *)
Definition onKey (p : Props) (r : Render) (channelRef : option Channel)
  (key : string) : list call :=
  (if String.eqb key "ArrowRight" || String.eqb (toLowerCase key) "d"
   then next p r channelRef else [])
  ++
  (if String.eqb key "ArrowLeft" || String.eqb (toLowerCase key) "a"
   then prev p r channelRef else []).

(** [channel.on("broadcast", { event: "slide" }, (payload) => ...)] *)
Definition onBroadcast (channel : Channel) (payload : Message) : list call :=
  if negb (liveFollow (c_state channel)) then []
  else
    let next := Number (nullish (payload_index payload) (VNumber 0)) in
    if negb (isNaN next) then [setIndex (bound (c_props channel) next)]
    else [].

(** [typeof p?.index === "number" ? p.index : 0] *)
Definition index_or_zero (p : Presence) : number :=
  match p_index p with
  | VNumber q => Fin q
  | _ => zero
  end.

(** [Object.values(state).flat().filter((p) => p?.role === "presenter")] *)
Definition presenters_of (state : PresenceState) : list Presence :=
  filter (fun p => is_string (p_role p) "presenter")
         (flat (Object_values state)).

(** [presenters.length > 0 ? Math.max(...presenters.map(...)) : 0] *)
Definition latestIdx (state : PresenceState) : number :=
  let presenters := presenters_of state in
  if (0 <? List.length presenters)%nat
  then Math_max (map index_or_zero presenters)
  else zero.

(** [channel.on("presence", { event: "sync" }, () => ...)] *)
Definition onPresenceSync (channel : Channel) (state : PresenceState)
  : list call :=
  if isPresenter (c_props channel) then []
  else [setIndex (bound (c_props channel) (latestIdx state))].

(** [channel.subscribe((status) => ...)] *)
Definition onStatus (channel : Channel) (status : string) : list call :=
  if String.eqb status "SUBSCRIBED" then
    track (topic channel) (role_of (c_props channel)) (index (c_state channel))
    :: (if isPresenter (c_props channel)
        then [send (topic channel) (index (c_state channel))]
        else [])
  else [].

(** *** The mounted component *)

Record Instance : Type := {
  props : Props;
  userKey : string;
  state : Render;
  channelRef : option Channel
}.

Definition update (r : Render) (c : call) : Render :=
  match c with
  | setIndex i => {| index := i; liveFollow := liveFollow r |}
  | setLiveFollow b => {| index := index r; liveFollow := b |}
  | _ => r
  end.

(** The state of the next render, after the updates a handler queued. *)
Definition reduce (r : Render) (calls : list call) : Render :=
  fold_left update calls r.

Definition on_channel (c : call) : bool :=
  match c with
  | setIndex _ | setLiveFollow _ => false
  | _ => true
  end.

(** The calls that leave the component. *)
Definition outgoing (calls : list call) : list call :=
  filter on_channel calls.

(** Body of the channel effect: [supabase.channel(`slides:${roomId}`, ...)],
    the three callbacks registered on it, [channelRef.current = channel]. *)
Definition openChannel (p : Props) (key : string) (r : Render) : Channel :=
  {| topic := "slides:" ++ roomId p;
     presenceKey := key;
     c_props := p;
     c_state := r |}.

(** Cleanup of the channel effect: [channel?.unsubscribe()]. *)
Definition closeChannel (channelRef : option Channel) : list call :=
  match channelRef with
  | None => []
  | Some channel => [unsubscribe (topic channel)]
  end.

(** The effect on [[index, isPresenter]]: a presenter republishes its
    presence record. *)
Definition indexEffect (p : Props) (r : Render) (channelRef : option Channel)
  : list call :=
  match channelRef with
  | None => []
  | Some channel =>
      if isPresenter p then [track (topic channel) "presenter" (index r)]
      else []
  end.

Definition initial : Render := {| index := zero; liveFollow := true |}.

(** First render and its effects.  The effects of a render run when the
    render itself succeeded ([render] below says when it does): [mount] and
    [step] follow the component for as long as it stays mounted. *)
Definition mount (p : Props) (key : string) : Instance * list call :=
  let channel := openChannel p key initial in
  ({| props := p; userKey := key; state := initial;
      channelRef := Some channel |},
   subscribe (topic channel) key :: indexEffect p initial (Some channel)).

Inductive event : Type :=
| Click_next
| Click_prev
| Click_reSync
| Change_follow (checked : bool)
| KeyDown (key : string)
| Broadcast (payload : Message)
| PresenceSync (presence : PresenceState)
| Status (status : string)
| Route (room : string) (presenter : bool).
(** [Route] is the parent rendering the component again with another
    [roomId] or [isPresenter]; [slides] is the constant list the page
    imports. *)

(** The calls made by whatever is listening to the event.  The re-sync
    button exists only while [liveFollow] is false, the key listener only
    for a presenter, the channel callbacks only on the current channel. *)
Definition handle (st : Instance) (e : event) : list call :=
  let '(p, r, ref) := (props st, state st, channelRef st) in
  match e with
  | Click_next => next p r ref
  | Click_prev => prev p r ref
  | Click_reSync => if liveFollow r then [] else reSync p r ref
  | Change_follow checked => onChange checked
  | KeyDown key => if isPresenter p then onKey p r ref key else []
  | Broadcast payload =>
      match ref with Some channel => onBroadcast channel payload | None => [] end
  | PresenceSync presence =>
      match ref with Some channel => onPresenceSync channel presence | None => [] end
  | Status status =>
      match ref with Some channel => onStatus channel status | None => [] end
  | Route _ _ => []
  end.

(** Rendering again with new props: the effects whose dependencies changed
    are cleaned up, then run, in the order of the source. *)
Definition rerender (st : Instance) (room : string) (presenter : bool)
  : Instance * list call :=
  let p := props st in
  let p' := {| roomId := room; slides := slides p; isPresenter := presenter |} in
  let role_changed := negb (Bool.eqb presenter (isPresenter p)) in
  let room_changed := negb (String.eqb room (roomId p)) in
  let channel' := openChannel p' (userKey st) (state st) in
  let ref' :=
    if room_changed || role_changed then Some channel' else channelRef st in
  ({| props := p'; userKey := userKey st; state := state st;
      channelRef := ref' |},
   ((if room_changed || role_changed
     then closeChannel (channelRef st)
          ++ [subscribe (topic channel') (userKey st)]
     else [])
    ++ (if role_changed then indexEffect p' (state st) ref' else []))%list).

(** One event: the handler runs against the current render, its state
    updates are applied, and the index effect runs when [index] changed.
    A render that throws ends the component instead; [alive] below is the
    condition under which no render of a run does. *)
Definition step (st : Instance) (e : event) : Instance * list call :=
  match e with
  | Route room presenter => rerender st room presenter
  | _ =>
      let calls := handle st e in
      let r' := reduce (state st) calls in
      ({| props := props st; userKey := userKey st; state := r';
          channelRef := channelRef st |},
       (outgoing calls
        ++ (if same (index (state st)) (index r') then []
            else indexEffect (props st) r' (channelRef st)))%list)
  end.

Definition after (st : Instance) (e : event) : Instance := fst (step st e).
Definition emitted (st : Instance) (e : event) : list call := snd (step st e).

Fixpoint run (st : Instance) (es : list event) : Instance :=
  match es with
  | [] => st
  | e :: rest => run (after st e) rest
  end.

(** The states a component mounted with [p] can be in. *)
Inductive reachable (p : Props) (key : string) : Instance -> Prop :=
| reach_mount : reachable p key (fst (mount p key))
| reach_step st e : reachable p key st -> reachable p key (after st e).

(** ** The specification's vocabulary *)

(** [max(0, min(slideCount-1, i))] *)
Definition clamp (slideCount : nat) (i : Q) : Q :=
  Qmax 0 (Qmin (inject_Z (Z.of_nat slideCount) - 1) i).

(** [0 <= index <= slideCount-1] *)
Definition in_range (slideCount : nat) (i : number) : Prop :=
  exists q, i = Fin q /\ 0 <= q <= inject_Z (Z.of_nat slideCount) - 1.

(** The indices (numbers) reported by the presence records tagged
    ["presenter"]. *)
Definition reported (presence : PresenceState) : list Q :=
  flat_map (fun p => match p_index p with VNumber q => [q] | _ => [] end)
           (presenters_of presence).

Definition is_maximum (m : Q) (xs : list Q) : Prop :=
  In m xs /\ forall x, In x xs -> x <= m.

(** What [index_or_zero] reads from a record, as a rational. *)
Definition read (p : Presence) : Q :=
  match p_index p with VNumber q => q | _ => 0 end.

Definition presenter_at (i : Z) : Presence :=
  {| p_role := VString "presenter"; p_index := VNumber (inject_Z i) |}.

Definition viewer_at (i : Z) : Presence :=
  {| p_role := VString "viewer"; p_index := VNumber (inject_Z i) |}.

Definition deck (n : nat) : list Slide :=
  repeat {| src := "/slides/1.png"; alt := None |} n.

(** The index a navigation button asks for. *)
Definition requested (r : Render) (e : event) : number :=
  match e with
  | Click_next => add (index r) one
  | Click_prev => sub (index r) one
  | _ => index r
  end.

(** A deck whose first slide has an alternative text, whose second has
    none and whose third has an empty one. *)
Definition titled : list Slide :=
  [ {| src := "/slides/intro.png"; alt := Some "Intro" |};
    {| src := "/slides/plan.png"; alt := None |};
    {| src := "/slides/end.png"; alt := Some "" |} ].

Definition talk : Props :=
  {| roomId := "talk"; slides := titled; isPresenter := false |}.

(** A room of [n] slides, opened as presenter or as viewer. *)
Definition demo (n : nat) (presenter : bool) : Props :=
  {| roomId := "demo"; slides := deck n; isPresenter := presenter |}.

Definition mounted (n : nat) (presenter : bool) : Instance :=
  fst (mount (demo n presenter) "u_k3x9a2b").

(** Three presenters at slides 2, 5 and 1, and a viewer at slide 9. *)
Definition three_presenters : PresenceState :=
  [("u_a", [presenter_at 2]);
   ("u_b", [presenter_at 5; viewer_at 9]);
   ("u_c", [presenter_at 1])].

Definition nobody_presents : PresenceState :=
  [("u_a", [viewer_at 4]); ("u_b", [viewer_at 1])].

(** ** Unmounting, and what a run emits *)

(** Cleanup of the channel effect when the component goes away:
    [return () => { channel?.unsubscribe(); }]. *)
Definition unmount (st : Instance) : list call :=
  closeChannel (channelRef st).

(** The calls emitted while the events are handled one after the other. *)
Fixpoint trace (st : Instance) (es : list event) : list call :=
  match es with
  | [] => []
  | e :: rest => (emitted st e ++ trace (after st e) rest)%list
  end.

Definition is_route (e : event) : bool :=
  match e with Route _ _ => true | _ => false end.

Fixpoint remove_one (x : string) (xs : list string) : list string :=
  match xs with
  | [] => []
  | y :: rest => if String.eqb x y then rest else y :: remove_one x rest
  end.

(** The topics subscribed to and not unsubscribed from, after the calls. *)
Fixpoint open_channels (opened : list string) (calls : list call)
  : list string :=
  match calls with
  | [] => opened
  | subscribe on _ :: rest => open_channels (on :: opened) rest
  | unsubscribe on :: rest => open_channels (remove_one on opened) rest
  | _ :: rest => open_channels opened rest
  end.

(** ** What is rendered *)

(** A number is an array index when it is a nonnegative integer; any other
    number names a property an array does not have. *)
Definition is_integer (q : Q) : bool :=
  (Qnum q mod Zpos (Qden q) =? 0)%Z.

Definition array_index (i : number) : option nat :=
  match i with
  | Fin q =>
      if is_integer q && (0 <=? Qnum q)%Z
      then Some (Z.to_nat (Qnum q / Zpos (Qden q)))
      else None
  | _ => None
  end.

(** [xs[i]]; [None] is [undefined]. *)
Definition at_index {A : Type} (xs : list A) (i : number) : option A :=
  match array_index i with
  | Some n => nth_error xs n
  | None => None
  end.

(** The decimal digits of a natural number, as [`${n}`] prints them. *)
Definition decimal (n : nat) : string :=
  DecimalString.NilZero.string_of_uint (Nat.to_uint n).

(** The parts of the rendered tree that depend on props and state:
    [Diapositiva {index + 1}/{slides.length}], the checkbox, whether the
    re-sync button is there, and the image. *)
Record View : Type := {
  v_room : string;
  v_position : nat;
  v_total : nat;
  v_checked : bool;
  v_reSync : bool;
  v_src : string;
  v_alt : string
}.

(** [slides[index].alt || `Slide ${index + 1}`]: the empty string is falsy
    too. *)
Definition alt_text (slide : Slide) (n : nat) : string :=
  match alt slide with
  | Some (String a rest) => String a rest
  | _ => "Slide " ++ decimal (n + 1)
  end.

(** The render; [None] when [slides[index]] is undefined and reading its
    [src] throws. *)
Definition render (p : Props) (r : Render) : option View :=
  match array_index (index r) with
  | Some n =>
      match nth_error (slides p) n with
      | Some slide =>
          Some {| v_room := roomId p;
                  v_position := n + 1;
                  v_total := List.length (slides p);
                  v_checked := liveFollow r;
                  v_reSync := negb (liveFollow r);
                  v_src := src slide;
                  v_alt := alt_text slide n |}
      | None => None
      end
  | None => None
  end.

(** No render throws along the run: the state the run starts from renders,
    and so does the state after each of its events.  Only then does the
    component stay mounted throughout. *)
Fixpoint alive (st : Instance) (es : list event) : Prop :=
  render (props st) (state st) <> None
  /\ match es with
     | [] => True
     | e :: rest => alive (after st e) rest
     end.

(** ** More vocabulary *)

(** Numbers that are integers where they are finite. *)
Definition integral (i : number) : Prop :=
  match i with
  | Fin q => is_integer q = true
  | _ => True
  end.

(** Events whose payloads carry whole slide numbers. *)
Definition integral_event (e : event) : Prop :=
  match e with
  | Broadcast payload =>
      integral (Number (nullish (payload_index payload) (VNumber 0)))
  | PresenceSync presence =>
      Forall (fun p => integral (index_or_zero p)) (presenters_of presence)
  | _ => True
  end.

(** The last slide: [slides.length - 1]. *)
Definition last_index (p : Props) : Q :=
  inject_Z (Z.of_nat (List.length (slides p))) - 1.

(** Two characters that differ at most by the case of an ASCII letter. *)
Definition is_letter (a : ascii) : bool :=
  between 65 90 (code a) || between 97 122 (code a).

Definition caseless_char (a b : ascii) : bool :=
  Ascii.eqb a b
  || (is_letter a && is_letter b
      && ((code a =? code b + 32)%nat || (code b =? code a + 32)%nat)).

Fixpoint caseless (s t : string) : bool :=
  match s, t with
  | EmptyString, EmptyString => true
  | String a s', String b t' => caseless_char a b && caseless s' t'
  | _, _ => false
  end.

(** The keys that advance and the keys that go back. *)
Definition goes_right (k : string) : Prop :=
  k = "ArrowRight" \/ k = "d" \/ k = "D".

Definition goes_left (k : string) : Prop :=
  k = "ArrowLeft" \/ k = "a" \/ k = "A".

(** A call that neither opens nor closes a channel. *)
Definition no_sub (c : call) : bool :=
  match c with
  | subscribe _ _ | unsubscribe _ => false
  | _ => true
  end.

(** A call as the other clients of topic [on] expect it from a client of
    the given role: a presence record with that role, a slide broadcast
    only from a presenter, both with a slide of the deck. *)
Definition well_formed (slideCount : nat) (on role : string) (c : call)
  : Prop :=
  match c with
  | send t i => t = on /\ role = "presenter" /\ in_range slideCount i
  | track t r i => t = on /\ r = role /\ in_range slideCount i
  | subscribe t _ => t = on
  | unsubscribe _ => True
  | setIndex _ | setLiveFollow _ => False
  end.

(** ** Numbers: comparison, [Math.max] and [Math.min] *)

Section Numbers.

Local Open Scope Q_scope.

Lemma lt_Fin (x y : Q) : JS.lt (Fin x) (Fin y) = true <-> x < y.
Proof.
  cbn. rewrite Qlt_alt. destruct (x ?= y); split; congruence.
Qed.

Lemma lt_Fin_false (x y : Q) : JS.lt (Fin x) (Fin y) = false <-> y <= x.
Proof.
  cbn. rewrite Qle_alt, <- (Qcompare_antisym y x).
  destruct (y ?= x); cbn; intuition congruence.
Qed.

(** On two finite numbers [Math.min] and [Math.max] are the minimum and
    maximum of the rationals. *)
Lemma Math_min_Fin (x y : Q) : Math_min [Fin x; Fin y] = Fin (Qmin x y).
Proof.
  unfold Math_min, Qmin, GenericMinMax.gmin. cbn.
  rewrite <- (Qcompare_antisym y x).
  destruct (y ?= x); reflexivity.
Qed.

Lemma Math_max_Fin (x y : Q) : Math_max [Fin x; Fin y] = Fin (Qmax x y).
Proof.
  unfold Math_max, Qmax, GenericMinMax.gmax. cbn.
  destruct (x ?= y); reflexivity.
Qed.

Lemma last_nonneg (n : nat) : (0 < n)%nat -> 0 <= inject_Z (Z.of_nat n) - 1.
Proof.
  intros Hn. unfold Qminus.
  change 0 with (inject_Z 0). change (- (1)) with (inject_Z (-1)).
  rewrite <- inject_Z_plus, <- Zle_Qle. lia.
Qed.

Lemma clamp_range (n : nat) (q : Q) :
  (0 < n)%nat -> 0 <= clamp n q <= inject_Z (Z.of_nat n) - 1.
Proof.
  intros Hn. unfold clamp.
  pose proof (last_nonneg n Hn) as HL.
  split.
  - apply Q.le_max_l.
  - apply Q.max_lub; [exact HL | apply Q.le_min_l].
Qed.

(** The maximum of a clamped pair: raising the argument to at least 0
    does not change the clamped value. *)
Lemma clamp_max0 (n : nat) (q : Q) : clamp n (Qmax 0 q) == clamp n q.
Proof.
  unfold clamp.
  set (L := inject_Z (Z.of_nat n) - 1).
  destruct (Q.max_spec 0 q) as [[H1 H2] | [H1 H2]].
  - rewrite H2. reflexivity.
  - rewrite H2.
    rewrite (Q.max_l 0 (Qmin L 0)) by apply Q.le_min_r.
    rewrite (Q.max_l 0 (Qmin L q)); [reflexivity | ].
    apply Qle_trans with q; [apply Q.le_min_r | exact H1].
Qed.

Lemma clamp_compat (n : nat) (x y : Q) : x == y -> clamp n x == clamp n y.
Proof.
  intros E. unfold clamp. rewrite E. reflexivity.
Qed.

End Numbers.

(** ** [bound] *)

Section Bound.

Local Open Scope Q_scope.

Variable p : Props.

Lemma bound_Fin (q : Q) : bound p (Fin q) = Fin (clamp (List.length (slides p)) q).
Proof.
  unfold bound, clamp, length_of, zero, one, sub.
  cbn [JS.neg JS.add]. rewrite Math_min_Fin, Math_max_Fin. reflexivity.
Qed.

Lemma bound_PosInfinity : bound p PosInfinity
  = Fin (Qmax 0 (inject_Z (Z.of_nat (List.length (slides p))) - 1)).
Proof.
  unfold bound, length_of, zero, one, sub, Math_min.
  cbn [JS.neg JS.add min_from isNaN JS.lt]. rewrite Math_max_Fin. reflexivity.
Qed.

Lemma bound_NegInfinity : bound p NegInfinity = zero.
Proof. reflexivity. Qed.

Lemma clamp_zero (k : nat) : clamp k 0 = 0.
Proof.
  unfold clamp, Qmax, Qmin, GenericMinMax.gmax, GenericMinMax.gmin.
  destruct (inject_Z (Z.of_nat k) - 1 ?= 0) eqn:E; try reflexivity;
    rewrite <- Qcompare_antisym, E; reflexivity.
Qed.

Lemma bound_zero : bound p zero = zero.
Proof.
  unfold zero. rewrite bound_Fin, clamp_zero. reflexivity.
Qed.

(** Whatever number that is not NaN goes in, a number of the slide range
    comes out, as soon as there is a slide. *)
Lemma bound_in_range (i : number) :
  (0 < List.length (slides p))%nat -> isNaN i = false ->
  in_range (List.length (slides p)) (bound p i).
Proof.
  intros Hn Hi. set (n := List.length (slides p)) in *. destruct i as [ | | q | ]; try discriminate.
  - exists 0. split; [reflexivity | ].
    split; [apply Qle_refl | apply last_nonneg, Hn].
  - exists (clamp n q). split; [apply bound_Fin | apply clamp_range, Hn].
  - exists (Qmax 0 (inject_Z (Z.of_nat n) - 1)).
    split; [apply bound_PosInfinity | ].
    split; [apply Q.le_max_l | ].
    apply Q.max_lub; [apply last_nonneg, Hn | apply Qle_refl].
Qed.

End Bound.

(** ** [Math.max] over the presenters *)

Section Maximum.

Local Open Scope Q_scope.

Lemma max_from_Fin (xs : list Q) (h : Q) :
  exists m, max_from (Fin h) (map Fin xs) = Fin m /\ is_maximum m (h :: xs).
Proof.
  revert h. induction xs as [ | x xs IH]; intros h.
  - exists h. split; [reflexivity | ]. split; [now left | ].
    intros y [<- | []]. apply Qle_refl.
  - cbn [map max_from isNaN].
    destruct (JS.lt (Fin h) (Fin x)) eqn:E.
    + apply lt_Fin in E.
      destruct (IH x) as (m & Hm & Hin & Hub). exists m.
      split; [exact Hm | ]. split.
      * destruct Hin as [<- | Hin]; [right; now left | right; now right].
      * intros y [<- | [<- | Hy]].
        -- apply Qle_trans with x; [apply Qlt_le_weak, E | apply Hub; now left].
        -- apply Hub; now left.
        -- apply Hub; now right.
    + apply lt_Fin_false in E.
      destruct (IH h) as (m & Hm & Hin & Hub). exists m.
      split; [exact Hm | ]. split.
      * destruct Hin as [<- | Hin]; [now left | right; now right].
      * intros y [<- | [<- | Hy]].
        -- apply Hub; now left.
        -- apply Qle_trans with h; [exact E | apply Hub; now left].
        -- apply Hub; now right.
Qed.

Lemma Math_max_Fin_list (x : Q) (xs : list Q) :
  exists m, Math_max (map Fin (x :: xs)) = Fin m /\ is_maximum m (x :: xs).
Proof.
  unfold Math_max. cbn [map max_from isNaN JS.lt]. apply max_from_Fin.
Qed.

Lemma index_or_zero_read (ps : list Presence) :
  map index_or_zero ps = map Fin (map read ps).
Proof.
  rewrite map_map. apply map_ext. intros p.
  unfold index_or_zero, read. destruct (p_index p); reflexivity.
Qed.

Lemma latestIdx_spec (presence : PresenceState) :
  (presenters_of presence = [] /\ latestIdx presence = zero)
  \/ (exists m, latestIdx presence = Fin m
                /\ is_maximum m (map read (presenters_of presence))).
Proof.
  unfold latestIdx. destruct (presenters_of presence) as [ | p ps] eqn:E.
  - left. split; reflexivity.
  - right. cbn [List.length Nat.ltb Nat.leb].
    rewrite index_or_zero_read. apply Math_max_Fin_list.
Qed.

Lemma latestIdx_not_NaN (presence : PresenceState) :
  isNaN (latestIdx presence) = false.
Proof.
  destruct (latestIdx_spec presence) as [[_ ->] | (m & -> & _)]; reflexivity.
Qed.

Lemma reported_read (ps : list Presence) (q : Q) :
  In q (flat_map (fun p => match p_index p with VNumber q => [q] | _ => [] end) ps)
  -> In q (map read ps).
Proof.
  rewrite in_flat_map, in_map_iff. intros (p & Hp & Hq).
  exists p. split; [ | exact Hp]. unfold read.
  destruct (p_index p); try contradiction. destruct Hq as [-> | []]. reflexivity.
Qed.

Lemma read_reported (ps : list Presence) (q : Q) :
  In q (map read ps) ->
  In q (flat_map (fun p => match p_index p with VNumber q => [q] | _ => [] end) ps)
  \/ q = 0.
Proof.
  rewrite in_flat_map, in_map_iff. intros (p & Hq & Hp). unfold read in Hq.
  destruct (p_index p) eqn:E; try (right; now symmetry).
  left. exists p. split; [exact Hp | ]. rewrite E. left. exact Hq.
Qed.

(** Counting a record without a numeric index as 0 makes no difference once
    the maximum is clamped. *)
Lemma clamp_latest (n : nat) (presence : PresenceState) (m : Q) :
  is_maximum m (reported presence) ->
  exists q, latestIdx presence = Fin q /\ clamp n q == clamp n m.
Proof.
  intros [Hin Hub]. unfold reported in *.
  destruct (latestIdx_spec presence) as [[E _] | (q & Hq & Hqin & Hqub)].
  - rewrite E in Hin. contradiction.
  - exists q. split; [exact Hq | ].
    destruct (read_reported _ _ Hqin) as [Hr | ->].
    + apply clamp_compat, Qle_antisym.
      * apply Hub, Hr.
      * apply Hqub, reported_read, Hin.
    + assert (Hm : m <= 0) by (apply Hqub, reported_read, Hin).
      rewrite <- (clamp_max0 n m).
      apply clamp_compat. symmetry. apply Q.max_l, Hm.
Qed.

Lemma latest_none (presence : PresenceState) :
  reported presence = [] -> latestIdx presence = zero.
Proof.
  intros E.
  destruct (latestIdx_spec presence) as [[_ H] | (q & Hq & Hqin & _)];
    [exact H | ].
  destruct (read_reported _ _ Hqin) as [Hr | ->]; [ | exact Hq].
  unfold reported in E. rewrite E in Hr. contradiction.
Qed.

End Maximum.

(** ** State updates *)

Section Reduce.

(** The index after a handler is the old one or the argument of one of its
    [setIndex] calls. *)
Lemma reduce_index (calls : list call) (r : Render) :
  index (reduce r calls) = index r
  \/ In (setIndex (index (reduce r calls))) calls.
Proof.
  revert r. induction calls as [ | c cs IH]; intros r; [now left | ].
  cbn [reduce fold_left]. fold (reduce (update r c) cs).
  destruct (IH (update r c)) as [E | Hin]; [ | right; now right].
  rewrite E. destruct c; cbn; auto.
Qed.

Lemma reduce_no_setIndex (calls : list call) (r : Render) :
  (forall i, ~ In (setIndex i) calls) -> index (reduce r calls) = index r.
Proof.
  intros H. destruct (reduce_index calls r) as [E | Hin]; [exact E | ].
  elim (H _ Hin).
Qed.

End Reduce.

(** ** What holds of every reachable state *)

Section Reachable.

Variable p : Props.
Variable key : string.

(** The slides never change, the channel is there, and its callbacks see
    the current props: the channel effect runs again whenever the room or
    the role changes. *)
Lemma reachable_attached (st : Instance) :
  reachable p key st ->
  slides (props st) = slides p
  /\ exists channel, channelRef st = Some channel /\ c_props channel = props st.
Proof.
  induction 1 as [ | st e _ (Hs & ch & Hch & Hp)].
  - split; [reflexivity | ]. eexists. split; reflexivity.
  - unfold after.
    destruct e as [ | | | checked | k | payload | presence | status | rm pr];
      cbn [step fst];
      try (cbn [props channelRef]; split; [exact Hs | exists ch; now split]).
    unfold rerender. cbn [fst props channelRef slides].
    split; [exact Hs | ].
    destruct (negb (rm =? roomId (props st))%string
              || negb (Bool.eqb pr (isPresenter (props st)))) eqn:E.
    + eexists. split; reflexivity.
    + exists ch. split; [exact Hch | ]. rewrite Hp.
      apply orb_false_elim in E. destruct E as [E1 E2].
      apply negb_false_iff in E1, E2.
      apply String.eqb_eq in E1. apply Bool.eqb_prop in E2.
      destruct (props st) as [r0 s0 b0]. cbn in *. subst. reflexivity.
Qed.

End Reachable.

(** ** Handlers *)

Section Handlers.

Lemma same_refl (i : number) : same i i = true.
Proof. destruct i; cbn; auto using Qeq_bool_refl. Qed.

Lemma add_not_NaN (i : number) (q : Q) :
  isNaN i = false -> isNaN (add i (Fin q)) = false.
Proof. destruct i; cbn; congruence. Qed.

Lemma in_range_not_NaN (n : nat) (i : number) : in_range n i -> isNaN i = false.
Proof. intros (q & -> & _). reflexivity. Qed.

Lemma broadcast_no_setIndex (ref : option Channel) (i j : number) :
  ~ In (setIndex j) (broadcast ref i).
Proof. destruct ref; cbn; intuition discriminate. Qed.

(** [next] and [prev] set the index once, to the bounded target. *)
Lemma navigate_setIndex (p : Props) (r : Render) (ref : option Channel)
  (e : event) (j : number) :
  e = Click_next \/ e = Click_prev ->
  In (setIndex j) (match e with Click_next => next p r ref | _ => prev p r ref end) ->
  j = bound p (requested r e).
Proof.
  intros [-> | ->]; cbn [requested]; unfold next, prev;
    (intros [E | Hin]; [now inversion E | ]);
    destruct (isPresenter p); try contradiction;
    elim (broadcast_no_setIndex _ _ _ Hin).
Qed.

(** Every [setIndex] of every handler passes a bounded number that is not
    NaN. *)
Lemma handle_setIndex (st : Instance) (e : event) (j : number) :
  isNaN (index (state st)) = false ->
  (forall channel, channelRef st = Some channel -> c_props channel = props st) ->
  In (setIndex j) (handle st e) ->
  exists i, isNaN i = false /\ j = bound (props st) i.
Proof.
  intros Hi Hp. unfold handle.
  destruct e as [ | | | checked | k | payload | presence | status | rm pr].
  - intros Hin. exists (requested (state st) Click_next). split.
    + apply add_not_NaN, Hi.
    + apply (navigate_setIndex _ _ (channelRef st) Click_next); auto.
  - intros Hin. exists (requested (state st) Click_prev). split.
    + apply add_not_NaN, Hi.
    + apply (navigate_setIndex _ _ (channelRef st) Click_prev); auto.
  - unfold reSync. destruct (liveFollow (state st)), (channelRef st);
      cbn; intuition discriminate.
  - cbn. intuition discriminate.
  - destruct (isPresenter (props st)); [ | contradiction].
    unfold onKey. rewrite in_app_iff.
    intros [Hin | Hin];
      [ destruct ((k =? "ArrowRight") || (toLowerCase k =? "d"))%string;
        [ | contradiction];
        exists (requested (state st) Click_next)
      | destruct ((k =? "ArrowLeft") || (toLowerCase k =? "a"))%string;
        [ | contradiction];
        exists (requested (state st) Click_prev) ];
      (split; [apply add_not_NaN, Hi | ]).
    + apply (navigate_setIndex _ _ (channelRef st) Click_next); auto.
    + apply (navigate_setIndex _ _ (channelRef st) Click_prev); auto.
  - destruct (channelRef st) as [ch | ] eqn:E; [ | contradiction].
    unfold onBroadcast. rewrite (Hp ch eq_refl).
    destruct (liveFollow (c_state ch)); cbn [negb]; [ | contradiction].
    destruct (isNaN (Number _)) eqn:EN; cbn [negb]; [contradiction | ].
    intros [Hin | []]. inversion Hin. eexists. split; [exact EN | reflexivity].
  - destruct (channelRef st) as [ch | ] eqn:E; [ | contradiction].
    unfold onPresenceSync. rewrite (Hp ch eq_refl).
    destruct (isPresenter (props st)); [contradiction | ].
    intros [Hin | []]. inversion Hin.
    exists (latestIdx presence). split; [apply latestIdx_not_NaN | reflexivity].
  - destruct (channelRef st) as [ch | ] eqn:E; [ | contradiction].
    unfold onStatus.
    destruct (status =? "SUBSCRIBED")%string, (isPresenter (c_props ch));
      cbn; intuition discriminate.
  - contradiction.
Qed.

(** What the broadcast callback does when it follows: neither the role nor
    the current value of the follow-live flag is read. *)
Lemma broadcast_applied (st : Instance) (channel : Channel)
  (payload : Message) :
  channelRef st = Some channel ->
  liveFollow (c_state channel) = true ->
  isNaN (Number (nullish (payload_index payload) (VNumber 0))) = false ->
  handle st (Broadcast payload)
  = [setIndex (bound (c_props channel)
                 (Number (nullish (payload_index payload) (VNumber 0))))].
Proof.
  intros Hch Hf Hn. unfold handle. rewrite Hch.
  unfold onBroadcast. rewrite Hf, Hn. reflexivity.
Qed.

(** And when the flag it captured is false it does nothing. *)
Lemma broadcast_ignored (st : Instance) (channel : Channel)
  (payload : Message) :
  channelRef st = Some channel ->
  liveFollow (c_state channel) = false ->
  handle st (Broadcast payload) = [].
Proof.
  intros Hch Hf. unfold handle. rewrite Hch.
  unfold onBroadcast. rewrite Hf. reflexivity.
Qed.

Lemma after_state (st : Instance) (e : event) :
  state (after st e) = reduce (state st) (handle st e).
Proof. destruct e; reflexivity. Qed.

Lemma reachable_run (p : Props) (key : string) (st : Instance) (es : list event) :
  reachable p key st -> reachable p key (run st es).
Proof.
  revert st. induction es as [ | e es IH]; intros st H; [exact H | ].
  cbn [run]. apply IH. constructor. exact H.
Qed.

(** A viewer's presence-sync callback always sets the index, to the bounded
    maximum. *)
Lemma presence_sync_index (p : Props) (key : string) (st : Instance)
  (presence : PresenceState) :
  reachable p key st ->
  isPresenter (props st) = false ->
  index (state (after st (PresenceSync presence)))
  = bound (props st) (latestIdx presence).
Proof.
  intros Hr Hv. destruct (reachable_attached _ _ _ Hr) as (_ & ch & Hch & Hp).
  rewrite after_state. unfold handle. rewrite Hch.
  unfold onPresenceSync. rewrite Hp, Hv. reflexivity.
Qed.

End Handlers.

(** ** Properties of the specification *)

Section Claims.

Local Open Scope Q_scope.

(** C1 (evaluation of the code where the claim fails).  The specification
    says that a presenter ignores slide broadcasts.  The broadcast callback
    never looks at the role: a presenter mounted on three slides, at slide
    0, that receives the notification [{ index: 2 }] moves to slide 2 (and
    republishes its presence there). *)
Theorem presenter_applies_broadcast :
  let st := mounted 3 true in
  let notification := Broadcast (Some (VNumber 2)) in
  isPresenter (props st) = true
  /\ index (state st) = Fin 0
  /\ index (state (after st notification)) = Fin 2
  /\ emitted st notification = [track "slides:demo" "presenter" (Fin 2)].
Proof. repeat split. Qed.

(** C2 (evaluation of the code where the claim fails).  The specification
    says that a viewer whose follow-live flag is false keeps its index when
    a broadcast arrives.  The callback tests the flag of the render in
    which the channel effect ran, not the current one: a viewer on three
    slides that unticks the box and then receives [{ index: 2 }] moves from
    slide 0 to slide 2 while its flag is still false. *)
Theorem unfollowed_viewer_applies_broadcast :
  let st := after (mounted 3 false) (Change_follow false) in
  let notification := Broadcast (Some (VNumber 2)) in
  isPresenter (props st) = false
  /\ liveFollow (state st) = false
  /\ index (state st) = Fin 0
  /\ index (state (after st notification)) = Fin 2
  /\ liveFollow (state (after st notification)) = false.
Proof. repeat split. Qed.

(** C3.  After [next], [prev] or [go(i)] the index is
    [max(0, min(slideCount-1, target))], the target being [index + 1],
    [index - 1] and [i]. *)
Theorem navigation_clamps (st : Instance) (q i : Q) :
  index (state st) = Fin q ->
  let slideCount := List.length (slides (props st)) in
  index (state (after st Click_next)) = Fin (clamp slideCount (q + 1))
  /\ index (state (after st Click_prev)) = Fin (clamp slideCount (q - 1))
  /\ index (reduce (state st) (go (props st) (Fin i)))
     = Fin (clamp slideCount i).
Proof.
  intros Hq slideCount. rewrite !after_state.
  assert (Hnav : forall e, e = Click_next \/ e = Click_prev ->
            index (reduce (state st) (handle st e))
            = bound (props st) (requested (state st) e)).
  { intros e He. unfold handle.
    assert (E : handle st e
                = setIndex (bound (props st) (requested (state st) e))
                  :: (if isPresenter (props st)
                      then broadcast (channelRef st)
                             (bound (props st) (requested (state st) e))
                      else []))
      by (destruct He as [-> | ->]; reflexivity).
    unfold handle in E. rewrite E. cbn [reduce fold_left].
    fold (reduce (update (state st) (setIndex (bound (props st) (requested (state st) e))))
                 (if isPresenter (props st)
                  then broadcast (channelRef st)
                         (bound (props st) (requested (state st) e))
                  else [])).
    rewrite reduce_no_setIndex; [reflexivity | ].
    intros j. destruct (isPresenter (props st));
      [apply broadcast_no_setIndex | intros []]. }
  repeat split.
  - rewrite (Hnav Click_next) by now left.
    cbn [requested]. rewrite Hq. apply bound_Fin.
  - rewrite (Hnav Click_prev) by now right.
    cbn [requested]. rewrite Hq. apply bound_Fin.
  - cbn. apply bound_Fin.
Qed.

Lemma navigation_clamps_witness :
  index (state (mounted 3 false)) = Fin 0
  /\ index (state (after (mounted 3 false) Click_next)) = Fin (clamp 3 (0 + 1))
  /\ index (state (after (mounted 3 false) Click_prev)) = Fin (clamp 3 (0 - 1))
  /\ index (reduce (state (mounted 3 false)) (go (props (mounted 3 false)) (Fin 7)))
     = Fin (clamp 3 7).
Proof.
  split; [reflexivity | ].
  apply (navigation_clamps (mounted 3 false) 0 7). reflexivity.
Defined.

(** C4.  On a presence-sync event a viewer sets its index to the clamped
    maximum of the indices reported by the records tagged ["presenter"],
    and to 0 when there is none; presenters at 2, 5 and 1 give 5 (on a deck
    that has a slide 5), no presenter gives 0. *)
Theorem presence_sync_takes_maximum (p : Props) (key : string)
  (st : Instance) (presence : PresenceState) :
  reachable p key st ->
  isPresenter (props st) = false ->
  let slideCount := List.length (slides (props st)) in
  let resolved ps := index (state (after st (PresenceSync ps))) in
  (forall m, is_maximum m (reported presence) ->
     exists q, resolved presence = Fin q /\ q == clamp slideCount m)
  /\ (presenters_of presence = [] -> resolved presence = Fin 0)
  /\ (reported presence = [] -> resolved presence = Fin 0)
  /\ is_maximum 5 (reported three_presenters)
  /\ ((6 <= slideCount)%nat -> resolved three_presenters = Fin 5)
  /\ presenters_of nobody_presents = []
  /\ resolved nobody_presents = Fin 0.
Proof.
  intros Hr Hv slideCount resolved. unfold resolved.
  assert (Hnone : forall ps, reported ps = [] ->
            index (state (after st (PresenceSync ps))) = Fin 0).
  { intros ps E. rewrite (presence_sync_index _ _ _ _ Hr Hv).
    rewrite (latest_none _ E). apply bound_zero. }
  assert (Hmax : forall ps m, is_maximum m (reported ps) ->
            exists q, index (state (after st (PresenceSync ps))) = Fin q
                      /\ q == clamp slideCount m).
  { intros ps m Hm. rewrite (presence_sync_index _ _ _ _ Hr Hv).
    destruct (clamp_latest slideCount ps m Hm) as (q & -> & Hq).
    exists (clamp slideCount q). split; [apply bound_Fin | exact Hq]. }
  assert (H5 : is_maximum 5 (reported three_presenters)).
  { split; [right; now left | ].
    intros x [<- | [<- | [<- | []]]]; discriminate. }
  repeat split.
  - apply Hmax.
  - intros E. apply Hnone. unfold reported. rewrite E. reflexivity.
  - apply Hnone.
  - apply H5.
  - apply H5.
  - intros Hn. rewrite (presence_sync_index _ _ _ _ Hr Hv).
    change (latestIdx three_presenters) with (Fin 5).
    rewrite bound_Fin. fold slideCount. f_equal.
    unfold clamp, Qmax, Qmin, GenericMinMax.gmax, GenericMinMax.gmin.
    assert (HL : 5 <= inject_Z (Z.of_nat slideCount) - 1).
    { unfold Qminus. change 5 with (inject_Z 5).
      change (- (1)) with (inject_Z (-1)).
      rewrite <- inject_Z_plus, <- Zle_Qle. lia. }
    destruct (inject_Z (Z.of_nat slideCount) - 1 ?= 5) eqn:E.
    + apply Qeq_alt in E. unfold Qeq in E. cbn in E.
      unfold Qminus, Qplus, inject_Z. cbn.
      replace (Z.of_nat slideCount * 1 + -1)%Z with 5%Z by lia. reflexivity.
    + apply Qlt_alt in E. elim (Qlt_not_le _ _ E HL).
    + reflexivity.
  - apply Hnone. reflexivity.
Qed.

Lemma presence_sync_takes_maximum_witness :
  let st := after (mounted 8 false) Click_next in
  let resolved ps := index (state (after st (PresenceSync ps))) in
  reachable (demo 8 false) "u_k3x9a2b" st
  /\ isPresenter (props st) = false
  /\ (6 <= List.length (slides (props st)))%nat
  /\ resolved three_presenters = Fin 5
  /\ resolved nobody_presents = Fin 0.
Proof.
  assert (Hr : reachable (demo 8 false) "u_k3x9a2b"
                 (after (mounted 8 false) Click_next))
    by (constructor; constructor).
  split; [exact Hr | ]. split; [reflexivity | ].
  split; [cbn; lia | ].
  pose proof (presence_sync_takes_maximum (demo 8 false) "u_k3x9a2b"
                (after (mounted 8 false) Click_next) three_presenters
                Hr eq_refl) as H.
  cbv zeta in H. destruct H as (_ & _ & _ & _ & H5 & _ & H0).
  split; [apply H5; cbn; lia | exact H0].
Defined.

(** C5.  [isPresenter] is true exactly when the query parameter is present
    and its lowercased form is one of ["1"], ["true"], ["yes"]; an absent
    parameter, ["0"] and any other string give false, [YES] in any case
    gives true. *)
Theorem isPresenter_iff (presenter : option string) :
  (Page.isPresenter presenter = true
   <-> exists s, presenter = Some s
                 /\ In (toLowerCase s) ["1"; "true"; "yes"]%string)
  /\ (Page.isPresenter presenter = false
      <-> presenter = None
          \/ exists s, presenter = Some s
                       /\ ~ In (toLowerCase s) ["1"; "true"; "yes"]%string)
  /\ Page.isPresenter None = false
  /\ Page.isPresenter (Some "YES"%string) = true
  /\ Page.isPresenter (Some "yEs"%string) = true
  /\ Page.isPresenter (Some "True"%string) = true
  /\ Page.isPresenter (Some "1"%string) = true
  /\ Page.isPresenter (Some "0"%string) = false
  /\ Page.isPresenter (Some "presenter"%string) = false.
Proof.
  assert (Hin : forall s, includes ["1"; "true"; "yes"]%string (toLowerCase s) = true
                          <-> In (toLowerCase s) ["1"; "true"; "yes"]%string).
  { intros s. unfold includes. rewrite existsb_exists. split.
    - intros (x & Hx & E). apply String.eqb_eq in E. now subst.
    - intros H. exists (toLowerCase s). split; [exact H | apply String.eqb_refl]. }
  split; [ | split; [ | repeat split]].
  - destruct presenter as [s | ]; cbn [Page.isPresenter].
    + rewrite Hin. split.
      * intros H. exists s. now split.
      * intros (s' & E & H). now inversion E; subst.
    + split; [discriminate | intros (s & E & _); discriminate].
  - destruct presenter as [s | ]; cbn [Page.isPresenter].
    + rewrite <- not_true_iff_false, Hin. split.
      * intros H. right. exists s. now split.
      * intros [E | (s' & E & H)]; [discriminate | now inversion E; subst].
    + split; [now left | reflexivity].
Qed.

(** C6 (the claim as stated fails).  A viewer at slide 2 that receives a
    notification whose index is the string ["abc"] stays at slide 2: the
    number parsed is NaN and the guard skips [setIndex]. *)
Lemma non_numeric_payload_not_zeroed :
  let st := after (mounted 3 false) (Broadcast (Some (VNumber 2))) in
  let notification := Broadcast (Some (VString "abc")) in
  Number (VString "abc") = NaN
  /\ index (state st) = Fin 2
  /\ index (state (after st notification)) = Fin 2
  /\ index (state (after st notification)) <> Fin 0.
Proof. repeat split. discriminate. Qed.

(** When the index is absent or null the [?? 0] default makes it 0, and a
    callback that follows sets the index to 0. *)
Lemma absent_index_reads_zero (st : Instance) (channel : Channel)
  (payload : Message) :
  channelRef st = Some channel ->
  liveFollow (c_state channel) = true ->
  payload_index payload = VUndefined \/ payload_index payload = VNull ->
  index (state (after st (Broadcast payload))) = Fin 0.
Proof.
  intros Hch Hf Habs. rewrite after_state. unfold handle. rewrite Hch.
  unfold onBroadcast. rewrite Hf.
  destruct Habs as [-> | ->]; cbn; apply bound_zero.
Qed.

(** C6 (amended).  A notification whose index is non-numeric, that is,
    whose numeric parsing [Number(index ?? 0)] is NaN, is dropped by the
    NaN guard: the recipient's index, with the rest of its state, is left
    as it is (it is not set to 0), and nothing is emitted. *)
Theorem nan_payload_is_dropped (st : Instance) (payload : Message) :
  isNaN (Number (nullish (payload_index payload) (VNumber 0))) = true ->
  index (state (after st (Broadcast payload))) = index (state st)
  /\ after st (Broadcast payload) = st
  /\ emitted st (Broadcast payload) = [].
Proof.
  intros HN.
  assert (H : after st (Broadcast payload) = st
              /\ emitted st (Broadcast payload) = []).
  { unfold after, emitted, step, handle.
    destruct (channelRef st) as [ch | ] eqn:E.
    - unfold onBroadcast. rewrite HN.
      destruct (liveFollow (c_state ch)); cbn;
        rewrite same_refl, <- E; destruct st as [p k [i f] c]; split; reflexivity.
    - cbn. rewrite same_refl, <- E.
      destruct st as [p k [i f] c]; split; reflexivity. }
  destruct H as [Ha He]. split; [rewrite Ha; reflexivity | ].
  split; [exact Ha | exact He].
Qed.

Lemma nan_payload_is_dropped_witness :
  let st := after (mounted 3 false) (Broadcast (Some (VNumber 2))) in
  isNaN (Number (nullish (payload_index (Some (VString "12px"))) (VNumber 0))) = true
  /\ index (state st) = Fin 2
  /\ index (state (after st (Broadcast (Some (VString "12px"))))) = Fin 2
  /\ after st (Broadcast (Some (VString "12px"))) = st
  /\ emitted st (Broadcast (Some (VString "12px"))) = [].
Proof.
  pose proof (nan_payload_is_dropped
                (after (mounted 3 false) (Broadcast (Some (VNumber 2))))
                (Some (VString "12px")) eq_refl) as (H1 & H2 & H3).
  split; [reflexivity | ]. split; [reflexivity | ].
  split; [exact H1 | ]. split; [exact H2 | exact H3].
Defined.

(** C7.  Re-sync sets follow-live to true and republishes the client's own
    presence record, with its current role (["presenter"] for a presenter,
    ["viewer"] for a viewer) and its current index; the index itself is not
    touched and nothing else is sent. *)
Theorem reSync_republishes (st : Instance) (channel : Channel) :
  channelRef st = Some channel ->
  liveFollow (state st) = false ->
  let st' := after st Click_reSync in
  liveFollow (state st') = true
  /\ index (state st') = index (state st)
  /\ emitted st Click_reSync
     = [track (topic channel)
          (if isPresenter (props st) then "presenter" else "viewer")
          (index (state st))]
  /\ (forall i, ~ In (setIndex i) (reSync (props st) (state st) (channelRef st))).
Proof.
  intros Hch Hf st'. unfold st', after, emitted, step, handle.
  rewrite Hf, Hch. cbn. rewrite same_refl.
  repeat split. intuition discriminate.
Qed.

Lemma reSync_republishes_witness :
  let viewer := run (mounted 3 false) [Click_next; Change_follow false] in
  let presenter := run (mounted 3 true) [Click_next; Click_next; Change_follow false] in
  channelRef viewer = Some (openChannel (demo 3 false) "u_k3x9a2b" initial)
  /\ liveFollow (state viewer) = false
  /\ liveFollow (state (after viewer Click_reSync)) = true
  /\ index (state (after viewer Click_reSync)) = Fin 1
  /\ emitted viewer Click_reSync = [track "slides:demo" "viewer" (Fin 1)]
  /\ isPresenter (props presenter) = true
  /\ liveFollow (state presenter) = false
  /\ index (state (after presenter Click_reSync)) = Fin 2
  /\ emitted presenter Click_reSync = [track "slides:demo" "presenter" (Fin 2)].
Proof.
  pose proof (reSync_republishes
                (run (mounted 3 false) [Click_next; Change_follow false])
                _ eq_refl eq_refl) as (H1 & H2 & H3 & _).
  pose proof (reSync_republishes
                (run (mounted 3 true) [Click_next; Click_next; Change_follow false])
                _ eq_refl eq_refl) as (_ & P2 & P3 & _).
  split; [reflexivity | ]. split; [reflexivity | ].
  split; [exact H1 | ]. split; [exact H2 | ]. split; [exact H3 | ].
  split; [reflexivity | ]. split; [reflexivity | ].
  split; [exact P2 | exact P3].
Defined.

(** What a click on a navigation button sets and emits, in terms of
    [bound]. *)
Lemma navigation_emits (st : Instance) (e : event) :
  e = Click_next \/ e = Click_prev ->
  let i := bound (props st) (requested (state st) e) in
  index (state (after st e)) = i
  /\ (isPresenter (props st) = false -> emitted st e = [])
  /\ (forall channel,
        isPresenter (props st) = true -> channelRef st = Some channel ->
        emitted st e
        = send (topic channel) i
          :: (if same (index (state st)) i then []
              else [track (topic channel) "presenter" i])).
Proof.
  intros He i.
  assert (E : handle st e
              = setIndex i :: (if isPresenter (props st)
                               then broadcast (channelRef st) i else []))
    by (destruct He as [-> | ->]; reflexivity).
  assert (Hs : step st e
               = ({| props := props st; userKey := userKey st;
                     state := reduce (state st) (handle st e);
                     channelRef := channelRef st |},
                  outgoing (handle st e)
                  ++ (if same (index (state st))
                              (index (reduce (state st) (handle st e)))
                      then []
                      else indexEffect (props st)
                             (reduce (state st) (handle st e)) (channelRef st)))%list)
    by (destruct He as [-> | ->]; reflexivity).
  clearbody i.
  assert (Hi : index (reduce (state st) (handle st e)) = i).
  { rewrite E. cbn [reduce fold_left].
    destruct (isPresenter (props st)), (channelRef st); reflexivity. }
  unfold after, emitted. rewrite Hs. cbn [fst snd state].
  split; [exact Hi | ]. split.
  - intros Hv. rewrite Hi. rewrite E, Hv. unfold indexEffect. rewrite Hv.
    cbn. destruct (channelRef st), (same (index (state st)) i); reflexivity.
  - intros ch Hp Hch. rewrite Hi. rewrite E, Hp, Hch. unfold indexEffect.
    rewrite Hp. cbn. destruct (same (index (state st)) i); reflexivity.
Qed.

(** C8.  A viewer's [next] or [prev] sets its index to the clamped target
    [max(0, min(slideCount-1, index +- 1))] and sends nothing at all; a
    presenter's sets the same clamped index and sends it as a slide
    broadcast (and republishes its presence when the index moved). *)
Theorem only_presenter_navigation_broadcasts (st : Instance) (e : event)
  (q : Q) :
  e = Click_next \/ e = Click_prev ->
  index (state st) = Fin q ->
  let slideCount := List.length (slides (props st)) in
  let i := Fin (clamp slideCount
                  (match e with Click_next => q + 1 | _ => q - 1 end)) in
  index (state (after st e)) = i
  /\ (isPresenter (props st) = false -> emitted st e = [])
  /\ (forall channel,
        isPresenter (props st) = true -> channelRef st = Some channel ->
        emitted st e
        = send (topic channel) i
          :: (if same (Fin q) i then []
              else [track (topic channel) "presenter" i])).
Proof.
  intros He Hq slideCount i.
  assert (Hb : bound (props st) (requested (state st) e) = i)
    by (destruct He as [-> | ->]; cbn [requested]; rewrite Hq; apply bound_Fin).
  pose proof (navigation_emits st e He) as H. cbv zeta in H.
  rewrite Hb, Hq in H. exact H.
Qed.

Lemma only_presenter_navigation_broadcasts_witness :
  let viewer := run (mounted 3 false) [Click_next; Click_next] in
  let presenter := run (mounted 3 true) [Click_next; Click_next] in
  (Click_next = Click_next \/ Click_next = Click_prev)
  /\ isPresenter (props viewer) = false
  /\ index (state viewer) = Fin 2
  /\ index (state (after viewer Click_next)) = Fin 2
  /\ emitted viewer Click_next = []
  /\ index (state (after (mounted 3 false) Click_prev)) = Fin 0
  /\ isPresenter (props presenter) = true
  /\ index (state (after presenter Click_next)) = Fin 2
  /\ emitted presenter Click_next = [send "slides:demo" (Fin 2)]
  /\ emitted (mounted 3 true) Click_next
     = [send "slides:demo" (Fin 1); track "slides:demo" "presenter" (Fin 1)].
Proof.
  pose proof (only_presenter_navigation_broadcasts
                (run (mounted 3 false) [Click_next; Click_next]) Click_next 2
                (or_introl eq_refl) eq_refl) as (V1 & V2 & _).
  pose proof (only_presenter_navigation_broadcasts
                (mounted 3 false) Click_prev 0
                (or_intror eq_refl) eq_refl) as (V3 & _ & _).
  pose proof (only_presenter_navigation_broadcasts
                (run (mounted 3 true) [Click_next; Click_next]) Click_next 2
                (or_introl eq_refl) eq_refl) as (P1 & _ & P2).
  pose proof (only_presenter_navigation_broadcasts
                (mounted 3 true) Click_next 0
                (or_introl eq_refl) eq_refl) as (_ & _ & P3).
  split; [now left | ]. split; [reflexivity | ]. split; [reflexivity | ].
  split; [exact V1 | ]. split; [exact (V2 eq_refl) | ].
  split; [exact V3 | ]. split; [reflexivity | ].
  split; [exact P1 | ]. split; [exact (P2 _ eq_refl eq_refl) | ].
  exact (P3 _ eq_refl eq_refl).
Defined.

(** C9.  With at least one slide, the index of every state the component
    can reach lies between 0 and [slideCount - 1]: it does after mounting,
    and navigation, an applied broadcast, presence-sync reconciliation,
    re-sync, the follow toggle and a change of room or role preserve it. *)
Theorem index_stays_in_range (p : Props) (key : string) (st : Instance) :
  slides p <> [] ->
  reachable p key st ->
  in_range (List.length (slides p)) (index (state st)).
Proof.
  intros Hne Hr.
  assert (Hn : (0 < List.length (slides p))%nat)
    by (destruct (slides p); [congruence | cbn; lia]).
  induction Hr as [ | st e Hr IH].
  - exists 0. split; [reflexivity | ].
    split; [apply Qle_refl | apply last_nonneg, Hn].
  - destruct (reachable_attached _ _ _ Hr) as (Hs & ch & Hch & Hp).
    rewrite after_state.
    destruct (reduce_index (handle st e) (state st)) as [E | Hin].
    + rewrite E. exact IH.
    + apply handle_setIndex in Hin.
      * destruct Hin as (i & Hi & ->). rewrite <- Hs.
        apply bound_in_range; [rewrite Hs; exact Hn | exact Hi].
      * apply in_range_not_NaN with (1 := IH).
      * intros ch' Hch'. rewrite Hch in Hch'. inversion Hch'. subst. exact Hp.
Qed.

Lemma index_stays_in_range_witness :
  let st := run (mounted 3 false)
              [ Click_prev; Broadcast (Some (VString "Infinity"));
                Click_next; PresenceSync three_presenters;
                Change_follow false; Click_reSync;
                Broadcast (Some (VNumber (-4))); Route "other" true;
                KeyDown "d" ] in
  slides (demo 3 false) <> []
  /\ reachable (demo 3 false) "u_k3x9a2b" st
  /\ index (state st) = Fin 1
  /\ in_range 3 (index (state st)).
Proof.
  assert (Hne : slides (demo 3 false) <> []) by discriminate.
  assert (Hr : reachable (demo 3 false) "u_k3x9a2b"
                 (run (mounted 3 false)
                    [ Click_prev; Broadcast (Some (VString "Infinity"));
                      Click_next; PresenceSync three_presenters;
                      Change_follow false; Click_reSync;
                      Broadcast (Some (VNumber (-4))); Route "other" true;
                      KeyDown "d" ]))
    by (apply reachable_run; constructor).
  split; [exact Hne | ]. split; [exact Hr | ]. split; [reflexivity | ].
  exact (index_stays_in_range _ _ _ Hne Hr).
Defined.

(** C10.  The presence-sync callback of a viewer does not consult
    follow-live: whatever the flag, and whatever flag the channel callbacks
    captured, the index is overwritten with the bounded maximum, and with 0
    when no presenter record is present; the flag itself is left as it
    is. *)
Theorem presence_sync_overrides_unfollow (p : Props) (key : string)
  (st : Instance) (presence : PresenceState) :
  reachable p key st ->
  isPresenter (props st) = false ->
  liveFollow (state st) = false ->
  let st' := after st (PresenceSync presence) in
  index (state st') = bound (props st) (latestIdx presence)
  /\ (presenters_of presence = [] -> index (state st') = Fin 0)
  /\ liveFollow (state st') = false
  /\ handle st (PresenceSync presence)
     = [setIndex (bound (props st) (latestIdx presence))].
Proof.
  intros Hr Hv Hf st'. unfold st'.
  pose proof (presence_sync_index _ _ _ presence Hr Hv) as Hi.
  destruct (reachable_attached _ _ _ Hr) as (_ & ch & Hch & Hp).
  assert (Hh : handle st (PresenceSync presence)
               = [setIndex (bound (props st) (latestIdx presence))]).
  { unfold handle. rewrite Hch. unfold onPresenceSync. rewrite Hp, Hv.
    reflexivity. }
  split; [exact Hi | ]. split; [ | split; [ | exact Hh]].
  - intros E. rewrite Hi. unfold latestIdx. rewrite E. apply bound_zero.
  - rewrite after_state, Hh. exact Hf.
Qed.

Lemma presence_sync_overrides_unfollow_witness :
  let st := run (mounted 8 false) [Click_next; Click_next; Change_follow false] in
  reachable (demo 8 false) "u_k3x9a2b" st
  /\ isPresenter (props st) = false
  /\ liveFollow (state st) = false
  /\ index (state st) = Fin 2
  /\ index (state (after st (PresenceSync three_presenters))) = Fin 5
  /\ presenters_of nobody_presents = []
  /\ index (state (after st (PresenceSync nobody_presents))) = Fin 0.
Proof.
  assert (Hr : reachable (demo 8 false) "u_k3x9a2b"
                 (run (mounted 8 false)
                    [Click_next; Click_next; Change_follow false]))
    by (apply reachable_run; constructor).
  pose proof (presence_sync_overrides_unfollow _ _ _ three_presenters
                Hr eq_refl eq_refl) as (H1 & _).
  pose proof (presence_sync_overrides_unfollow _ _ _ nobody_presents
                Hr eq_refl eq_refl) as (_ & H2 & _).
  split; [exact Hr | ]. split; [reflexivity | ]. split; [reflexivity | ].
  split; [reflexivity | ]. split; [exact H1 | ].
  split; [reflexivity | exact (H2 eq_refl)].
Defined.

End Claims.

(** ** More about [bound] and navigation *)

Section Clamping.

Local Open Scope Q_scope.

Lemma last_index_eq (n : nat) :
  inject_Z (Z.of_nat n) - 1 = (Z.of_nat n * 1 + -1 * 1)%Z # 1.
Proof. reflexivity. Qed.

Lemma last_is_zero (n : nat) :
  inject_Z (Z.of_nat n) - 1 == 0 -> inject_Z (Z.of_nat n) - 1 = 0.
Proof.
  rewrite last_index_eq. unfold Qeq. cbn [Qnum Qden].
  intros E. replace (Z.of_nat n * 1 + -1 * 1)%Z with 0%Z by lia. reflexivity.
Qed.

(** The four ways [clamp] comes out. *)
Lemma clamp_cases (n : nat) (q : Q) :
  let L := inject_Z (Z.of_nat n) - 1 in
  (q < L /\ q <= 0 /\ clamp n q = 0)
  \/ (q < L /\ 0 < q /\ clamp n q = q)
  \/ (L <= q /\ 0 < L /\ clamp n q = L)
  \/ (L <= q /\ L <= 0 /\ clamp n q = 0).
Proof.
  intros L. unfold clamp. fold L.
  unfold Qmax, Qmin, GenericMinMax.gmax, GenericMinMax.gmin.
  destruct (L ?= q) eqn:E1.
  - apply Qeq_alt in E1.
    destruct (0 ?= L) eqn:E2.
    + apply Qeq_alt in E2. right. right. right. repeat split; lra.
    + apply Qlt_alt in E2. right. right. left. repeat split; lra.
    + apply Qgt_alt in E2. right. right. right. repeat split; lra.
  - apply Qlt_alt in E1.
    destruct (0 ?= L) eqn:E2.
    + apply Qeq_alt in E2. right. right. right. repeat split; lra.
    + apply Qlt_alt in E2. right. right. left. repeat split; lra.
    + apply Qgt_alt in E2. right. right. right. repeat split; lra.
  - apply Qgt_alt in E1.
    destruct (0 ?= q) eqn:E2.
    + apply Qeq_alt in E2. left. repeat split; lra.
    + apply Qlt_alt in E2. right. left. repeat split; lra.
    + apply Qgt_alt in E2. left. repeat split; lra.
Qed.

Lemma clamp_idempotent (n : nat) (q : Q) : clamp n (clamp n q) = clamp n q.
Proof.
  destruct (clamp_cases n q) as [(A & B & E) | [(A & B & E) | [(A & B & E) | (A & B & E)]]];
    rewrite E;
    match goal with
    | |- clamp n ?x = _ =>
        destruct (clamp_cases n x)
          as [(A' & B' & E') | [(A' & B' & E') | [(A' & B' & E') | (A' & B' & E')]]]
    end; rewrite E'; try reflexivity; lra.
Qed.

Lemma clamp_fixed (n : nat) (q : Q) :
  0 <= q <= inject_Z (Z.of_nat n) - 1 -> clamp n q == q.
Proof.
  intros [H0 HL].
  destruct (clamp_cases n q) as [(A & B & E) | [(A & B & E) | [(A & B & E) | (A & B & E)]]];
    rewrite E; lra.
Qed.

Lemma clamp_low (n : nat) (q : Q) : q <= 0 -> clamp n q = 0.
Proof.
  intros H.
  destruct (clamp_cases n q) as [(A & B & E) | [(A & B & E) | [(A & B & E) | (A & B & E)]]];
    rewrite E; first [reflexivity | lra].
Qed.

Lemma clamp_high (n : nat) (q : Q) :
  (0 < n)%nat -> inject_Z (Z.of_nat n) - 1 <= q ->
  clamp n q = inject_Z (Z.of_nat n) - 1.
Proof.
  intros Hn H. pose proof (last_nonneg n Hn) as HL.
  destruct (clamp_cases n q) as [(A & B & E) | [(A & B & E) | [(A & B & E) | (A & B & E)]]];
    rewrite E; first [reflexivity | lra | symmetry; apply last_is_zero; lra].
Qed.

Lemma clamp_monotone (n : nat) (x y : Q) : x <= y -> clamp n x <= clamp n y.
Proof.
  intros H.
  destruct (clamp_cases n x) as [(A & B & E) | [(A & B & E) | [(A & B & E) | (A & B & E)]]];
    destruct (clamp_cases n y) as [(A' & B' & E') | [(A' & B' & E') | [(A' & B' & E') | (A' & B' & E')]]];
    rewrite E, E'; lra.
Qed.

End Clamping.

Section Navigation.

Local Open Scope Q_scope.

(** One click on a navigation button, spelled out. *)
Lemma navigate_step (st : Instance) (e : event) :
  e = Click_next \/ e = Click_prev ->
  let i := bound (props st) (requested (state st) e) in
  let r' := {| index := i; liveFollow := liveFollow (state st) |} in
  after st e
  = {| props := props st; userKey := userKey st; state := r';
       channelRef := channelRef st |}
  /\ emitted st e
     = ((if isPresenter (props st) then broadcast (channelRef st) i else [])
        ++ (if same (index (state st)) i then []
            else indexEffect (props st) r' (channelRef st)))%list.
Proof.
  intros He i r'. subst r'.
  assert (E : handle st e
              = setIndex i :: (if isPresenter (props st)
                               then broadcast (channelRef st) i else []))
    by (destruct He as [-> | ->]; reflexivity).
  assert (Hs : step st e
               = ({| props := props st; userKey := userKey st;
                     state := reduce (state st) (handle st e);
                     channelRef := channelRef st |},
                  outgoing (handle st e)
                  ++ (if same (index (state st))
                              (index (reduce (state st) (handle st e)))
                      then []
                      else indexEffect (props st)
                             (reduce (state st) (handle st e)) (channelRef st)))%list)
    by (destruct He as [-> | ->]; reflexivity).
  clearbody i. unfold after, emitted. rewrite Hs, E. cbn [fst snd].
  destruct (isPresenter (props st)), (channelRef st); split; reflexivity.
Qed.

Lemma bound_of_bound (p : Props) (i : number) : bound p (bound p i) = bound p i.
Proof.
  destruct i as [ | | q | ].
  - reflexivity.
  - rewrite bound_NegInfinity. apply bound_zero.
  - rewrite !bound_Fin, clamp_idempotent. reflexivity.
  - rewrite bound_PosInfinity, bound_Fin. f_equal.
    set (L := inject_Z (Z.of_nat (List.length (slides p))) - 1).
    assert (E : clamp (List.length (slides p)) L = Qmax 0 L).
    { unfold clamp. fold L. f_equal.
      unfold Qmin, GenericMinMax.gmin.
      rewrite (proj1 (Qeq_alt L L) (Qeq_refl L)). reflexivity. }
    rewrite <- E. apply clamp_idempotent.
Qed.

(** X1.  [bound] is a projection onto the slide range: applying it twice
    is applying it once, and an index that is already between 0 and
    [slides.length - 1] comes back as the same number. *)
Theorem bound_is_a_projection (p : Props) (i : number) :
  bound p (bound p i) = bound p i
  /\ (in_range (List.length (slides p)) i -> same (bound p i) i = true).
Proof.
  split; [apply bound_of_bound | ].
  intros (q & -> & Hq). rewrite bound_Fin. cbn [same].
  apply Qeq_bool_iff, clamp_fixed, Hq.
Qed.

Lemma bound_is_a_projection_witness :
  in_range (List.length (slides (demo 4 false))) (Fin 2)
  /\ bound (demo 4 false) (bound (demo 4 false) (Fin 9))
     = bound (demo 4 false) (Fin 9)
  /\ same (bound (demo 4 false) (Fin 2)) (Fin 2) = true.
Proof.
  assert (H : in_range (List.length (slides (demo 4 false))) (Fin 2)).
  { exists 2. split; [reflexivity | ]. split; discriminate. }
  split; [exact H | ].
  split; [apply (bound_is_a_projection (demo 4 false) (Fin 9)) | ].
  apply (bound_is_a_projection (demo 4 false) (Fin 2)). exact H.
Defined.

(** X2.  [bound] saturates and keeps the order: with at least one slide,
    every number from the last index up (including +Infinity) gives the
    last index, every number from 0 down (including -Infinity) gives 0 on
    any deck, and a larger request never gives a smaller slide. *)
Theorem bound_saturates (p : Props) (x y : Q) :
  (slides p <> [] -> last_index p <= x ->
     bound p (Fin x) = Fin (last_index p)
     /\ bound p PosInfinity = Fin (last_index p))
  /\ (x <= 0 -> bound p (Fin x) = Fin 0 /\ bound p NegInfinity = Fin 0)
  /\ (x <= y ->
      exists a b, bound p (Fin x) = Fin a /\ bound p (Fin y) = Fin b /\ a <= b).
Proof.
  split; [ | split].
  - intros Hne Hx.
    assert (Hn : (0 < List.length (slides p))%nat)
      by (destruct (slides p); [congruence | cbn; lia]).
    split.
    + rewrite bound_Fin. f_equal. apply clamp_high; assumption.
    + rewrite bound_PosInfinity. f_equal. unfold last_index.
      pose proof (last_nonneg _ Hn) as HL.
      set (L := inject_Z (Z.of_nat (List.length (slides p))) - 1) in *.
      unfold Qmax, GenericMinMax.gmax.
      destruct (0 ?= L) eqn:E; try reflexivity.
      * apply Qeq_alt in E. symmetry. apply last_is_zero. symmetry. exact E.
      * apply Qgt_alt in E. lra.
  - intros Hx. split; [ | reflexivity].
    rewrite bound_Fin. f_equal. apply clamp_low, Hx.
  - intros Hxy. exists (clamp (List.length (slides p)) x),
      (clamp (List.length (slides p)) y).
    split; [apply bound_Fin | ]. split; [apply bound_Fin | ].
    apply clamp_monotone, Hxy.
Qed.

Lemma bound_saturates_witness :
  slides (demo 4 false) <> []
  /\ last_index (demo 4 false) <= 7
  /\ bound (demo 4 false) (Fin 7) = Fin 3
  /\ -2 <= 0
  /\ bound (demo 4 false) (Fin (-2)) = Fin 0.
Proof.
  assert (Hne : slides (demo 4 false) <> []) by discriminate.
  assert (H7 : last_index (demo 4 false) <= 7) by discriminate.
  assert (H2 : -2 <= 0) by discriminate.
  pose proof (bound_saturates (demo 4 false) 7 7) as (A & _ & _).
  pose proof (bound_saturates (demo 4 false) (-2) 0) as (_ & B & _).
  split; [exact Hne | ]. split; [exact H7 | ].
  split; [exact (proj1 (A Hne H7)) | ].
  split; [exact H2 | exact (proj1 (B H2))].
Defined.

Lemma navigate_index (st : Instance) (e : event) (q : Q) :
  e = Click_next \/ e = Click_prev ->
  index (state st) = Fin q ->
  index (state (after st e))
  = Fin (clamp (List.length (slides (props st)))
           (match e with Click_next => q + 1 | _ => q - 1 end))
  /\ props (after st e) = props st.
Proof.
  intros He Hq. destruct (navigate_step st e He) as [-> _].
  cbn [state index props]. split; [ | reflexivity].
  destruct He as [-> | ->]; cbn [requested]; rewrite Hq; apply bound_Fin.
Qed.

(** X3.  Navigation stops at the ends.  On the last slide [next] leaves
    the index where it is, and on the first slide so does [prev]; a
    presenter still broadcasts that index, but nothing is tracked again
    since the index did not change; a viewer emits nothing. *)
Theorem navigation_stops_at_the_ends (st : Instance) (channel : Channel)
  (q : Q) :
  slides (props st) <> [] ->
  channelRef st = Some channel ->
  index (state st) = Fin q ->
  (q == last_index (props st) ->
     index (state (after st Click_next)) = Fin (last_index (props st))
     /\ emitted st Click_next
        = if isPresenter (props st)
          then [send (topic channel) (Fin (last_index (props st)))]
          else [])
  /\ (q == 0 ->
      index (state (after st Click_prev)) = Fin 0
      /\ emitted st Click_prev
         = if isPresenter (props st) then [send (topic channel) (Fin 0)]
           else []).
Proof.
  intros Hne Hch Hq.
  assert (Hn : (0 < List.length (slides (props st)))%nat)
    by (destruct (slides (props st)); [congruence | cbn; lia]).
  split; intros E.
  - destruct (navigate_step st Click_next (or_introl eq_refl)) as [-> ->].
    cbn [state index requested]. rewrite Hq. cbn [add one].
    rewrite bound_Fin, clamp_high by (try assumption; unfold last_index in E; lra).
    fold (last_index (props st)). split; [reflexivity | ].
    cbn [same]. rewrite (proj2 (Qeq_bool_iff _ _) E), Hch.
    destruct (isPresenter (props st)); reflexivity.
  - destruct (navigate_step st Click_prev (or_intror eq_refl)) as [-> ->].
    cbn [state index requested]. rewrite Hq.
    change (sub (Fin q) one) with (Fin (q - 1)).
    rewrite bound_Fin, clamp_low by lra.
    split; [reflexivity | ].
    cbn [same]. rewrite (proj2 (Qeq_bool_iff _ _) E), Hch.
    destruct (isPresenter (props st)); reflexivity.
Qed.

Lemma navigation_stops_at_the_ends_witness :
  let st := run (mounted 3 true) [Click_next; Click_next] in
  slides (props st) <> []
  /\ index (state st) = Fin 2
  /\ 2 == last_index (props st)
  /\ index (state (after st Click_next)) = Fin 2
  /\ emitted st Click_next = [send "slides:demo" (Fin 2)]
  /\ index (state (after (mounted 3 true) Click_prev)) = Fin 0
  /\ emitted (mounted 3 true) Click_prev = [send "slides:demo" (Fin 0)].
Proof.
  assert (Hne : slides (props (run (mounted 3 true) [Click_next; Click_next])) <> [])
    by discriminate.
  assert (Hne0 : slides (props (mounted 3 true)) <> []) by discriminate.
  pose proof (navigation_stops_at_the_ends
                (run (mounted 3 true) [Click_next; Click_next]) _ 2
                Hne eq_refl eq_refl) as [A _].
  pose proof (navigation_stops_at_the_ends (mounted 3 true) _ 0
                Hne0 eq_refl eq_refl) as [_ B].
  assert (E2 : 2 == last_index (props (run (mounted 3 true) [Click_next; Click_next])))
    by reflexivity.
  assert (E0 : 0 == 0) by reflexivity.
  split; [exact Hne | ]. split; [reflexivity | ]. split; [exact E2 | ].
  split; [exact (proj1 (A E2)) | ]. split; [exact (proj2 (A E2)) | ].
  split; [exact (proj1 (B E0)) | exact (proj2 (B E0))].
Defined.

(** X4.  Away from the ends navigation is reversible: [next] then [prev]
    comes back to the slide it started from when there is a next slide,
    and [prev] then [next] does when there is a previous one. *)
Theorem next_then_prev_returns (st : Instance) (q : Q) :
  index (state st) = Fin q ->
  (0 <= q -> q + 1 <= last_index (props st) ->
     exists q', index (state (run st [Click_next; Click_prev])) = Fin q'
                /\ q' == q)
  /\ (1 <= q -> q <= last_index (props st) ->
      exists q', index (state (run st [Click_prev; Click_next])) = Fin q'
                 /\ q' == q).
Proof.
  intros Hq. unfold last_index. cbn [run].
  set (n := List.length (slides (props st))).
  split; intros H1 H2.
  - destruct (navigate_index st Click_next q (or_introl eq_refl) Hq) as [E1 P1].
    destruct (navigate_index _ Click_prev _ (or_intror eq_refl) E1) as [E2 _].
    rewrite P1 in E2. fold n in E1, E2.
    eexists. split; [exact E2 | ].
    assert (C1 : clamp n (q + 1) == q + 1) by (apply clamp_fixed; lra).
    apply Qeq_trans with (clamp n q);
      [apply clamp_compat; lra | apply clamp_fixed; lra].
  - destruct (navigate_index st Click_prev q (or_intror eq_refl) Hq) as [E1 P1].
    destruct (navigate_index _ Click_next _ (or_introl eq_refl) E1) as [E2 _].
    rewrite P1 in E2. fold n in E1, E2.
    eexists. split; [exact E2 | ].
    assert (C1 : clamp n (q - 1) == q - 1) by (apply clamp_fixed; lra).
    apply Qeq_trans with (clamp n q);
      [apply clamp_compat; lra | apply clamp_fixed; lra].
Qed.

Lemma next_then_prev_returns_witness :
  let st := after (mounted 4 false) Click_next in
  index (state st) = Fin 1
  /\ 0 <= 1 /\ 1 + 1 <= last_index (props st)
  /\ exists q', index (state (run st [Click_next; Click_prev])) = Fin q'
                /\ q' == 1.
Proof.
  assert (H0 : 0 <= 1) by discriminate.
  assert (H1 : 1 + 1 <= last_index (props (after (mounted 4 false) Click_next)))
    by discriminate.
  split; [reflexivity | ]. split; [exact H0 | ]. split; [exact H1 | ].
  exact (proj1 (next_then_prev_returns
                  (after (mounted 4 false) Click_next) 1 eq_refl) H0 H1).
Defined.

End Navigation.

(** ** The keyboard *)

Section Keyboard.

(** An event that is handled by nobody changes nothing. *)
Lemma idle_step (st : Instance) (e : event) :
  is_route e = false -> handle st e = [] ->
  after st e = st /\ emitted st e = [].
Proof.
  intros Hr Hh.
  assert (Hs : step st e
               = ({| props := props st; userKey := userKey st;
                     state := reduce (state st) (handle st e);
                     channelRef := channelRef st |},
                  outgoing (handle st e)
                  ++ (if same (index (state st))
                              (index (reduce (state st) (handle st e)))
                      then []
                      else indexEffect (props st)
                             (reduce (state st) (handle st e)) (channelRef st)))%list)
    by (destruct e; try discriminate; reflexivity).
  unfold after, emitted. rewrite Hs, Hh. cbn [fst snd reduce fold_left outgoing filter app].
  rewrite same_refl. destruct st as [p k r c]. split; reflexivity.
Qed.

(** What an event other than a change of route emits: the handler's calls
    to the channel, then the index effect if the index changed. *)
Lemma emitted_unfold (st : Instance) (e : event) :
  is_route e = false ->
  emitted st e
  = (outgoing (handle st e)
     ++ (if same (index (state st))
                 (index (reduce (state st) (handle st e)))
         then []
         else indexEffect (props st)
                (reduce (state st) (handle st e)) (channelRef st)))%list.
Proof. destruct e; intros H; try discriminate; reflexivity. Qed.

(** Two events that make the same calls have the same outcome. *)
Lemma step_by_handle (st : Instance) (e e' : event) :
  is_route e = false -> is_route e' = false ->
  handle st e = handle st e' -> step st e = step st e'.
Proof.
  intros Hr Hr' Hh.
  assert (Hs : forall x, is_route x = false ->
            step st x
            = ({| props := props st; userKey := userKey st;
                  state := reduce (state st) (handle st x);
                  channelRef := channelRef st |},
               outgoing (handle st x)
               ++ (if same (index (state st))
                           (index (reduce (state st) (handle st x)))
                   then []
                   else indexEffect (props st)
                          (reduce (state st) (handle st x)) (channelRef st)))%list)
    by (intros x Hx; destruct x; try discriminate; reflexivity).
  rewrite (Hs e Hr), (Hs e' Hr'), Hh. reflexivity.
Qed.

Lemma lower_d (k : string) : toLowerCase k = "d" -> k = "d" \/ k = "D".
Proof.
  destruct k as [ | c [ | c' r]]; cbn; try discriminate.
  intros H. inversion H as [H1]. clear H.
  destruct c as [[] [] [] [] [] [] [] []]; cbn in H1; try discriminate; auto.
Qed.

Lemma lower_a (k : string) : toLowerCase k = "a" -> k = "a" \/ k = "A".
Proof.
  destruct k as [ | c [ | c' r]]; cbn; try discriminate.
  intros H. inversion H as [H1]. clear H.
  destruct c as [[] [] [] [] [] [] [] []]; cbn in H1; try discriminate; auto.
Qed.

Lemma right_test (k : string) :
  ((k =? "ArrowRight") || (toLowerCase k =? "d"))%string = true <-> goes_right k.
Proof.
  unfold goes_right. rewrite orb_true_iff, !String.eqb_eq. split.
  - intros [H | H]; [now left | right; apply lower_d, H].
  - intros [H | [H | H]]; subst; auto.
Qed.

Lemma left_test (k : string) :
  ((k =? "ArrowLeft") || (toLowerCase k =? "a"))%string = true <-> goes_left k.
Proof.
  unfold goes_left. rewrite orb_true_iff, !String.eqb_eq. split.
  - intros [H | H]; [now left | right; apply lower_a, H].
  - intros [H | [H | H]]; subst; auto.
Qed.

Lemma right_not_left (k : string) : goes_right k -> ~ goes_left k.
Proof.
  intros [H | [H | H]] [H' | [H' | H']]; subst; discriminate.
Qed.

(** X5.  The presenter's keyboard.  ArrowRight, [d] and [D] do exactly
    what the next button does, ArrowLeft, [a] and [A] exactly what the
    previous button does, and every other key does nothing. *)
Theorem keydown_dispatch (st : Instance) (k : string) :
  isPresenter (props st) = true ->
  (goes_right k -> step st (KeyDown k) = step st Click_next)
  /\ (goes_left k -> step st (KeyDown k) = step st Click_prev)
  /\ (~ goes_right k -> ~ goes_left k ->
      after st (KeyDown k) = st /\ emitted st (KeyDown k) = []).
Proof.
  intros Hp.
  assert (Hh : handle st (KeyDown k) = onKey (props st) (state st) (channelRef st) k)
    by (unfold handle; rewrite Hp; reflexivity).
  split; [ | split].
  - intros Hr. apply step_by_handle; try reflexivity.
    rewrite Hh. unfold onKey.
    rewrite (proj2 (right_test k) Hr).
    destruct ((k =? "ArrowLeft") || (toLowerCase k =? "a"))%string eqn:E.
    + apply left_test in E. elim (right_not_left k Hr E).
    + apply app_nil_r.
  - intros Hl. apply step_by_handle; try reflexivity.
    rewrite Hh. unfold onKey.
    rewrite (proj2 (left_test k) Hl).
    destruct ((k =? "ArrowRight") || (toLowerCase k =? "d"))%string eqn:E.
    + apply right_test in E. elim (right_not_left k E Hl).
    + reflexivity.
  - intros Hr Hl. apply idle_step; [reflexivity | ].
    rewrite Hh. unfold onKey.
    destruct ((k =? "ArrowRight") || (toLowerCase k =? "d"))%string eqn:E1;
      [apply right_test in E1; contradiction | ].
    destruct ((k =? "ArrowLeft") || (toLowerCase k =? "a"))%string eqn:E2;
      [apply left_test in E2; contradiction | ].
    reflexivity.
Qed.

Lemma keydown_dispatch_witness :
  let st := after (mounted 3 true) Click_next in
  isPresenter (props st) = true
  /\ goes_right "D"
  /\ step st (KeyDown "D") = step st Click_next
  /\ goes_left "ArrowLeft"
  /\ step st (KeyDown "ArrowLeft") = step st Click_prev
  /\ ~ goes_right "Enter" /\ ~ goes_left "Enter"
  /\ after st (KeyDown "Enter") = st.
Proof.
  pose proof (keydown_dispatch (after (mounted 3 true) Click_next) "D" eq_refl)
    as (A & _ & _).
  pose proof (keydown_dispatch (after (mounted 3 true) Click_next) "ArrowLeft" eq_refl)
    as (_ & B & _).
  pose proof (keydown_dispatch (after (mounted 3 true) Click_next) "Enter" eq_refl)
    as (_ & _ & C).
  assert (R : goes_right "D") by (right; right; reflexivity).
  assert (L : goes_left "ArrowLeft") by (left; reflexivity).
  assert (NR : ~ goes_right "Enter") by (intros [H | [H | H]]; discriminate).
  assert (NL : ~ goes_left "Enter") by (intros [H | [H | H]]; discriminate).
  split; [reflexivity | ]. split; [exact R | ]. split; [exact (A R) | ].
  split; [exact L | ]. split; [exact (B L) | ].
  split; [exact NR | ]. split; [exact NL | exact (proj1 (C NR NL))].
Defined.

(** X6.  The keyboard of a viewer: the key listener is installed for a
    presenter only, so for a viewer no key changes the state or emits
    anything. *)
Theorem keydown_inert_for_viewer (st : Instance) (k : string) :
  isPresenter (props st) = false ->
  after st (KeyDown k) = st /\ emitted st (KeyDown k) = [].
Proof.
  intros Hv. apply idle_step; [reflexivity | ].
  unfold handle. rewrite Hv. reflexivity.
Qed.

Lemma keydown_inert_for_viewer_witness :
  let st := after (mounted 3 false) Click_next in
  isPresenter (props st) = false
  /\ after st (KeyDown "ArrowRight") = st
  /\ emitted st (KeyDown "ArrowRight") = [].
Proof.
  split; [reflexivity | ].
  exact (keydown_inert_for_viewer (after (mounted 3 false) Click_next)
           "ArrowRight" eq_refl).
Defined.

End Keyboard.

(** ** Presenter to follower *)

Section Following.

Local Open Scope Q_scope.

Lemma broadcast_index (st : Instance) (channel : Channel) (q : Q) :
  channelRef st = Some channel ->
  liveFollow (c_state channel) = true ->
  index (state (after st (Broadcast (Some (VNumber q)))))
  = bound (c_props channel) (Fin q).
Proof.
  intros Hch Hf. rewrite after_state.
  rewrite (broadcast_applied st channel (Some (VNumber q)) Hch Hf eq_refl).
  reflexivity.
Qed.

(** X7.  From the presenter to a follower.  When a presenter navigates it
    sends its new index, and an instance on a deck of the same length
    whose broadcast callback follows ends, on receiving that index, on the
    very slide the presenter shows. *)
Theorem presenter_navigation_reaches_followers
  (presenter follower : Instance) (out inc : Channel) (e : event) (q : Q) :
  e = Click_next \/ e = Click_prev ->
  isPresenter (props presenter) = true ->
  channelRef presenter = Some out ->
  index (state presenter) = Fin q ->
  channelRef follower = Some inc ->
  liveFollow (c_state inc) = true ->
  List.length (slides (c_props inc)) = List.length (slides (props presenter)) ->
  exists q',
    index (state (after presenter e)) = Fin q'
    /\ In (send (topic out) (Fin q')) (emitted presenter e)
    /\ index (state (after follower (Broadcast (Some (VNumber q'))))) = Fin q'.
Proof.
  intros He Hp Hout Hq Hinc Hf Hlen.
  destruct (navigate_index presenter e q He Hq) as [Hi _].
  destruct (navigate_step presenter e He) as [Ha He'].
  eexists. split; [exact Hi | ]. split.
  - rewrite He', Hp, Hout. left.
    rewrite <- Hi, Ha. reflexivity.
  - rewrite (broadcast_index follower inc _ Hinc Hf).
    rewrite bound_Fin, Hlen, clamp_idempotent. reflexivity.
Qed.

Lemma presenter_navigation_reaches_followers_witness :
  let presenter := after (mounted 5 true) Click_next in
  let follower := after (mounted 5 false) (Change_follow false) in
  isPresenter (props presenter) = true
  /\ index (state presenter) = Fin 1
  /\ exists q',
       index (state (after presenter Click_next)) = Fin q'
       /\ In (send "slides:demo" (Fin q')) (emitted presenter Click_next)
       /\ index (state (after follower (Broadcast (Some (VNumber q'))))) = Fin q'.
Proof.
  split; [reflexivity | ]. split; [reflexivity | ].
  exact (presenter_navigation_reaches_followers
           (after (mounted 5 true) Click_next)
           (after (mounted 5 false) (Change_follow false))
           _ _ Click_next 1 (or_introl eq_refl) eq_refl eq_refl eq_refl
           eq_refl eq_refl eq_refl).
Defined.

(** X8.  The follow checkbox and the re-sync button do not reach the
    broadcast callback: whether or not one of them is used first, the next
    slide broadcast leaves the same index and emits the same calls. *)
Theorem follow_controls_do_not_reach_the_callback (st : Instance)
  (control : event) (payload : Message) :
  (exists checked, control = Change_follow checked) \/ control = Click_reSync ->
  index (state (after (after st control) (Broadcast payload)))
  = index (state (after st (Broadcast payload)))
  /\ emitted (after st control) (Broadcast payload)
     = emitted st (Broadcast payload).
Proof.
  intros Hc.
  assert (Hsame : index (state (after st control)) = index (state st)
                  /\ channelRef (after st control) = channelRef st
                  /\ props (after st control) = props st).
  { destruct Hc as [[checked ->] | ->].
    - repeat split.
    - unfold after, step, handle, reSync.
      destruct (liveFollow (state st)), (channelRef st); repeat split. }
  destruct Hsame as (Hi & Hc' & Hp).
  assert (Hh : handle (after st control) (Broadcast payload)
               = handle st (Broadcast payload))
    by (unfold handle; rewrite Hc'; reflexivity).
  assert (Hidx : forall s, index (reduce (state s) (handle st (Broadcast payload)))
                 = match handle st (Broadcast payload) with
                   | setIndex i :: _ => i
                   | _ => index (state s)
                   end).
  { intros s. unfold handle. destruct (channelRef st) as [ch | ]; [ | reflexivity].
    unfold onBroadcast.
    destruct (liveFollow (c_state ch)); [ | reflexivity].
    destruct (isNaN _); reflexivity. }
  split.
  - rewrite (after_state st (Broadcast payload)),
      (after_state (after st control) (Broadcast payload)).
    rewrite Hh, !Hidx, Hi. reflexivity.
  - rewrite !emitted_unfold by reflexivity. unfold indexEffect.
    rewrite Hh, !Hidx, Hi, Hc', Hp. reflexivity.
Qed.

Lemma follow_controls_do_not_reach_the_callback_witness :
  let st := mounted 3 false in
  index (state (after (after st (Change_follow false))
                  (Broadcast (Some (VNumber 2))))) = Fin 2
  /\ index (state (after st (Broadcast (Some (VNumber 2))))) = Fin 2.
Proof.
  pose proof (follow_controls_do_not_reach_the_callback (mounted 3 false)
                (Change_follow false) (Some (VNumber 2))
                (or_introl (ex_intro _ false eq_refl))) as [H _].
  split; [rewrite H | ]; reflexivity.
Defined.

End Following.

(** ** What a component sends *)

Section Sending.

Local Open Scope Q_scope.

Lemma after_keeps (st : Instance) (e : event) :
  is_route e = false ->
  channelRef (after st e) = channelRef st
  /\ props (after st e) = props st
  /\ userKey (after st e) = userKey st.
Proof. destruct e; intros H; try discriminate; repeat split. Qed.

Lemma run_keeps (es : list event) (st : Instance) :
  Forall (fun e => is_route e = false) es ->
  channelRef (run st es) = channelRef st /\ props (run st es) = props st.
Proof.
  revert st. induction es as [ | e es IH]; intros st H; [now split | ].
  inversion H as [ | ? ? He Hes]; subst. cbn [run].
  destruct (IH (after st e) Hes) as [-> ->].
  destruct (after_keeps st e He) as (-> & -> & _). now split.
Qed.

(** The channel of a reachable component is the one of its room, its
    callbacks see the current props, and the presence key is the one drawn
    at mount. *)
Lemma reachable_channel (p : Props) (key : string) (st : Instance) :
  reachable p key st ->
  userKey st = key
  /\ exists channel,
       channelRef st = Some channel
       /\ c_props channel = props st
       /\ topic channel = ("slides:" ++ roomId (props st))%string.
Proof.
  induction 1 as [ | st e _ (Hk & ch & Hch & Hp & Ht)].
  - split; [reflexivity | ]. eexists. repeat split.
  - destruct (is_route e) eqn:Er.
    + destruct e as [ | | | | | | | | rm pr]; try discriminate.
      unfold after. cbn [step]. unfold rerender. cbn [fst userKey channelRef props roomId].
      split; [exact Hk | ].
      destruct (negb (rm =? roomId (props st))%string
                || negb (Bool.eqb pr (isPresenter (props st)))) eqn:E.
      * eexists. repeat split.
      * apply orb_false_elim in E. destruct E as [E1 E2].
        apply negb_false_iff in E1, E2.
        apply String.eqb_eq in E1. apply Bool.eqb_prop in E2. subst rm pr.
        exists ch. split; [exact Hch | ].
        rewrite Hp, Ht. destruct (props st); split; reflexivity.
    + destruct (after_keeps st e Er) as (-> & -> & ->).
      split; [exact Hk | ]. exists ch. repeat split; assumption.
Qed.

(** With at least one slide, the current index and the index the channel
    callbacks captured are both slides of the deck. *)
Lemma reachable_ranges (p : Props) (key : string) (st : Instance) :
  slides p <> [] ->
  reachable p key st ->
  slides (props st) = slides p
  /\ in_range (List.length (slides p)) (index (state st))
  /\ (forall channel, channelRef st = Some channel ->
        in_range (List.length (slides p)) (index (c_state channel))).
Proof.
  intros Hne Hr.
  assert (Hn : (0 < List.length (slides p))%nat)
    by (destruct (slides p); [congruence | cbn; lia]).
  induction Hr as [ | st e Hr (Hs & Hi & Hc)].
  - assert (H0 : in_range (List.length (slides p)) zero).
    { exists 0. split; [reflexivity | ].
      split; [apply Qle_refl | apply last_nonneg, Hn]. }
    split; [reflexivity | ]. split; [exact H0 | ].
    intros ch E. inversion E. exact H0.
  - destruct (reachable_attached _ _ _ Hr) as (_ & ch & Hch & Hp).
    assert (Hi' : in_range (List.length (slides p)) (index (state (after st e)))).
    { rewrite after_state.
      destruct (reduce_index (handle st e) (state st)) as [E | Hin].
      - rewrite E. exact Hi.
      - apply handle_setIndex in Hin.
        + destruct Hin as (i & Hnan & ->). rewrite <- Hs.
          apply bound_in_range; [rewrite Hs; exact Hn | exact Hnan].
        + apply in_range_not_NaN with (1 := Hi).
        + intros ch' Hch'. rewrite Hch in Hch'. inversion Hch'. subst. exact Hp. }
    split; [ | split; [exact Hi' | ]].
    + destruct e; exact Hs.
    + destruct (is_route e) eqn:Er.
      * destruct e as [ | | | | | | | | rm pr]; try discriminate.
        unfold after. cbn [step]. unfold rerender. cbn [fst channelRef].
        destruct (negb (rm =? roomId (props st))%string
                  || negb (Bool.eqb pr (isPresenter (props st)))).
        -- intros ch' E. inversion E. cbn [openChannel c_state]. exact Hi.
        -- exact Hc.
      * destruct (after_keeps st e Er) as (-> & _ & _). exact Hc.
Qed.

(** The calls a handler makes on the channel. *)
Lemma handle_outgoing (st : Instance) (channel : Channel) (e : event)
  (c : call) :
  channelRef st = Some channel ->
  c_props channel = props st ->
  In c (handle st e) -> on_channel c = true ->
  (isPresenter (props st) = true
   /\ (c = send (topic channel) (bound (props st) (requested (state st) Click_next))
       \/ c = send (topic channel) (bound (props st) (requested (state st) Click_prev))
       \/ c = send (topic channel) (index (c_state channel))))
  \/ c = track (topic channel) (role_of (props st)) (index (state st))
  \/ c = track (topic channel) (role_of (props st)) (index (c_state channel)).
Proof.
  intros Hch Hp.
  assert (Hnext : In c (next (props st) (state st) (Some channel)) ->
            on_channel c = true ->
            isPresenter (props st) = true
            /\ c = send (topic channel)
                     (bound (props st) (requested (state st) Click_next))).
  { unfold next. cbn [requested broadcast].
    intros [<- | Hin]; [discriminate | ].
    destruct (isPresenter (props st)); [ | contradiction].
    destruct Hin as [<- | []]. now split. }
  assert (Hprev : In c (prev (props st) (state st) (Some channel)) ->
            on_channel c = true ->
            isPresenter (props st) = true
            /\ c = send (topic channel)
                     (bound (props st) (requested (state st) Click_prev))).
  { unfold prev. cbn [requested broadcast].
    intros [<- | Hin]; [discriminate | ].
    destruct (isPresenter (props st)); [ | contradiction].
    destruct Hin as [<- | []]. now split. }
  unfold handle. rewrite Hch.
  destruct e as [ | | | checked | k | payload | presence | status | rm pr].
  - intros Hin Hon. destruct (Hnext Hin Hon) as [A B]. left. split; auto.
  - intros Hin Hon. destruct (Hprev Hin Hon) as [A B]. left. split; auto.
  - unfold reSync. destruct (liveFollow (state st)); [contradiction | ].
    intros [<- | [<- | []]]; [discriminate | ]. intros _. right. now left.
  - intros [<- | []]. discriminate.
  - destruct (isPresenter (props st)) eqn:E; [ | contradiction].
    unfold onKey. rewrite in_app_iff. intros [Hin | Hin] Hon.
    + destruct ((k =? "ArrowRight") || (toLowerCase k =? "d"))%string;
        [ | contradiction].
      destruct (Hnext Hin Hon) as [A B]. left. split; auto.
    + destruct ((k =? "ArrowLeft") || (toLowerCase k =? "a"))%string;
        [ | contradiction].
      destruct (Hprev Hin Hon) as [A B]. left. split; auto.
  - unfold onBroadcast. destruct (negb (liveFollow (c_state channel)));
      [contradiction | ].
    destruct (negb (isNaN _)); [ | contradiction].
    intros [<- | []]. discriminate.
  - unfold onPresenceSync. destruct (isPresenter (c_props channel));
      [contradiction | ].
    intros [<- | []]. discriminate.
  - unfold onStatus. rewrite Hp.
    destruct (status =? "SUBSCRIBED")%string; [ | contradiction].
    intros [<- | Hin] _; [right; now right | ].
    destruct (isPresenter (props st)) eqn:E; [ | contradiction].
    destruct Hin as [<- | []]. left. split; auto.
  - contradiction.
Qed.

End Sending.

(** ** The protocol seen from outside *)

Section Protocol.

Local Open Scope Q_scope.

(** X9.  What [SUBSCRIBED] publishes.  The subscribe callback is a closure
    of the render in which the channel was opened.  As long as the
    component stays in its room and role, every [SUBSCRIBED] status tracks
    (and, for a presenter, broadcasts) index 0, the index at mount,
    whatever slide the component is showing by then; the state is not
    changed. *)
Theorem subscribed_publishes_the_index_at_mount (p : Props) (key : string)
  (es : list event) :
  Forall (fun e => is_route e = false) es ->
  let st := run (fst (mount p key)) es in
  let on := ("slides:" ++ roomId p)%string in
  emitted st (Status "SUBSCRIBED")
  = track on (if isPresenter p then "presenter" else "viewer") (Fin 0)
    :: (if isPresenter p then [send on (Fin 0)] else [])
  /\ after st (Status "SUBSCRIBED") = st.
Proof.
  intros Hes st on.
  change (if isPresenter p then "presenter" else "viewer")%string
    with (role_of p).
  destruct (run_keeps es (fst (mount p key)) Hes) as [Hc Hp].
  fold st in Hc, Hp. cbn [mount fst channelRef props] in Hc, Hp.
  assert (Hh : handle st (Status "SUBSCRIBED")
               = track on (role_of p) (Fin 0)
                 :: (if isPresenter p then [send on (Fin 0)] else [])).
  { unfold handle. rewrite Hc. reflexivity. }
  split.
  - rewrite emitted_unfold by reflexivity. rewrite Hh.
    destruct (isPresenter p); cbn [reduce fold_left update outgoing filter on_channel];
      rewrite same_refl; reflexivity.
  - unfold after. cbn [step fst]. rewrite Hh.
    destruct st as [p' k' [i f] c'].
    destruct (isPresenter p); reflexivity.
Qed.

Lemma subscribed_publishes_the_index_at_mount_witness :
  let st := run (mounted 4 true) [Click_next; Click_next] in
  let viewer := run (mounted 4 false) [Click_next; Click_next] in
  Forall (fun e => is_route e = false) [Click_next; Click_next]
  /\ index (state st) = Fin 2
  /\ emitted st (Status "SUBSCRIBED")
     = [track "slides:demo" "presenter" (Fin 0); send "slides:demo" (Fin 0)]
  /\ index (state viewer) = Fin 2
  /\ emitted viewer (Status "SUBSCRIBED") = [track "slides:demo" "viewer" (Fin 0)].
Proof.
  assert (H : Forall (fun e => is_route e = false) [Click_next; Click_next])
    by (repeat constructor).
  split; [exact H | ]. split; [reflexivity | ].
  split; [exact (proj1 (subscribed_publishes_the_index_at_mount
                          (demo 4 true) "u_k3x9a2b" [Click_next; Click_next] H)) | ].
  split; [reflexivity | ].
  exact (proj1 (subscribed_publishes_the_index_at_mount
                  (demo 4 false) "u_k3x9a2b" [Click_next; Click_next] H)).
Defined.

Lemma indexEffect_sends_nothing (p : Props) (r : Render)
  (ref : option Channel) (t : string) (i : number) :
  ~ In (send t i) (indexEffect p r ref).
Proof.
  unfold indexEffect. destruct ref; [ | intros []].
  destruct (isPresenter p); cbn; intuition discriminate.
Qed.

(** X10.  A viewer never broadcasts: whatever happens to a component whose
    role is viewer (clicks, keys, incoming broadcasts and presence, status
    changes, even the change of route that makes it a presenter), nothing
    it emits is a slide broadcast. *)
Theorem viewer_never_broadcasts (p : Props) (key : string) (st : Instance)
  (e : event) (t : string) (i : number) :
  reachable p key st ->
  isPresenter (props st) = false ->
  ~ In (send t i) (emitted st e).
Proof.
  intros Hr Hv.
  destruct (reachable_attached _ _ _ Hr) as (_ & ch & Hch & Hp).
  destruct (is_route e) eqn:Er.
  - destruct e as [ | | | | | | | | rm pr]; try discriminate.
    unfold emitted. cbn [step]. unfold rerender. cbn [snd].
    rewrite !in_app_iff, Hch. intros [Hin | Hin].
    + destruct (_ || _); [ | contradiction].
      cbn in Hin. intuition discriminate.
    + destruct (negb _); [ | contradiction].
      apply indexEffect_sends_nothing in Hin. exact Hin.
  - rewrite emitted_unfold by exact Er. rewrite in_app_iff.
    intros [Hin | Hin].
    + unfold outgoing in Hin. apply filter_In in Hin. destruct Hin as [Hin Hon].
      destruct (handle_outgoing st ch e _ Hch Hp Hin Hon)
        as [[A _] | [B | B]]; congruence.
    + destruct (same _ _); [contradiction | ].
      apply indexEffect_sends_nothing in Hin. exact Hin.
Qed.

Lemma viewer_never_broadcasts_witness :
  let st := run (mounted 3 false) [Click_next; Change_follow false] in
  reachable (demo 3 false) "u_k3x9a2b" st
  /\ isPresenter (props st) = false
  /\ ~ In (send "slides:demo" (Fin 1)) (emitted st (Status "SUBSCRIBED"))
  /\ ~ In (send "slides:demo" (Fin 2)) (emitted st Click_next).
Proof.
  assert (Hr : reachable (demo 3 false) "u_k3x9a2b"
                 (run (mounted 3 false) [Click_next; Change_follow false]))
    by (apply reachable_run; constructor).
  split; [exact Hr | ]. split; [reflexivity | ].
  split; exact (viewer_never_broadcasts _ _ _ _ _ _ Hr eq_refl).
Defined.

(** What a component emits, with the role written as [role_of] does. *)
Lemma emitted_well_formed_roles (p : Props) (key : string) (st : Instance)
  (e : event) :
  slides p <> [] ->
  reachable p key st ->
  Forall (well_formed (List.length (slides p))
            ("slides:" ++ roomId (props (after st e)))%string
            (role_of (props (after st e))))
         (emitted st e).
Proof.
  intros Hne Hr.
  destruct (reachable_channel _ _ _ Hr) as (_ & ch & Hch & Hp & Ht).
  destruct (reachable_ranges _ _ _ Hne Hr) as (Hs & Hi & Hc).
  pose proof (Hc ch Hch) as Hci.
  assert (Hr' : reachable p key (after st e)) by (constructor; exact Hr).
  destruct (reachable_ranges _ _ _ Hne Hr') as (_ & Hi' & _).
  assert (Hn : (0 < List.length (slides (props st)))%nat)
    by (rewrite Hs; destruct (slides p); [congruence | cbn; lia]).
  apply Forall_forall. intros c.
  destruct (is_route e) eqn:Er.
  - destruct e as [ | | | | | | | | rm pr]; try discriminate.
    unfold emitted, after. cbn [step]. unfold rerender. cbn [snd fst props roomId].
    unfold role_of at 1. cbn [isPresenter].
    rewrite !in_app_iff, Hch. intros [Hin | Hin].
    + destruct (negb (rm =? roomId (props st))%string
                || negb (Bool.eqb pr (isPresenter (props st))));
        [ | contradiction].
      destruct Hin as [<- | [<- | []]]; cbn; auto.
    + destruct (negb (Bool.eqb pr (isPresenter (props st)))) eqn:E;
        [ | contradiction].
      rewrite orb_true_r in Hin. unfold indexEffect in Hin. cbn [isPresenter] in Hin.
      destruct pr; [ | contradiction].
      destruct Hin as [<- | []]. cbn. repeat split. exact Hi.
  - destruct (after_keeps st e Er) as (_ & -> & _).
    rewrite emitted_unfold by exact Er. rewrite in_app_iff.
    intros [Hin | Hin].
    + unfold outgoing in Hin. apply filter_In in Hin. destruct Hin as [Hin Hon].
      destruct (handle_outgoing st ch e _ Hch Hp Hin Hon)
        as [[A [-> | [-> | ->]]] | [-> | ->]];
        cbn [well_formed]; rewrite ?Ht; repeat split;
        try (unfold role_of; rewrite A; reflexivity);
        try assumption;
        rewrite <- Hs; apply bound_in_range; try exact Hn;
        apply add_not_NaN, in_range_not_NaN with (1 := Hi).
    + destruct (same _ _); [contradiction | ].
      unfold indexEffect in Hin. rewrite Hch in Hin.
      destruct (isPresenter (props st)) eqn:E; [ | contradiction].
      destruct Hin as [<- | []]. cbn [well_formed].
      rewrite Ht. unfold role_of. rewrite E. repeat split.
      rewrite <- after_state. exact Hi'.
Qed.

(** X11.  Everything a component emits is well formed for the other
    clients.  With at least one slide, every call a reachable component
    emits on an event goes to the channel of its (new) room; a presence
    record carries its (new) role, ["presenter"] for a presenter and
    ["viewer"] for a viewer, and a slide of the deck; a slide broadcast
    comes from a presenter only and carries a slide of the deck; a
    subscription is to the channel of the room. *)
Theorem emitted_is_well_formed (p : Props) (key : string) (st : Instance)
  (e : event) :
  slides p <> [] ->
  reachable p key st ->
  Forall (well_formed (List.length (slides p))
            ("slides:" ++ roomId (props (after st e)))%string
            (if isPresenter (props (after st e)) then "presenter"
             else "viewer"))
         (emitted st e).
Proof.
  intros Hne Hr. exact (emitted_well_formed_roles p key st e Hne Hr).
Qed.

Lemma emitted_is_well_formed_witness :
  let st := run (mounted 3 false) [Click_next; Route "other" true] in
  let viewer := run (mounted 3 false) [Click_next; Change_follow false] in
  slides (demo 3 false) <> []
  /\ reachable (demo 3 false) "u_k3x9a2b" st
  /\ emitted st Click_next
     = [send "slides:other" (Fin 2); track "slides:other" "presenter" (Fin 2)]
  /\ Forall (well_formed 3 "slides:other" "presenter") (emitted st Click_next)
  /\ reachable (demo 3 false) "u_k3x9a2b" viewer
  /\ emitted viewer Click_reSync = [track "slides:demo" "viewer" (Fin 1)]
  /\ Forall (well_formed 3 "slides:demo" "viewer") (emitted viewer Click_reSync).
Proof.
  assert (Hne : slides (demo 3 false) <> []) by discriminate.
  assert (Hr : reachable (demo 3 false) "u_k3x9a2b"
                 (run (mounted 3 false) [Click_next; Route "other" true]))
    by (apply reachable_run; constructor).
  assert (Hv : reachable (demo 3 false) "u_k3x9a2b"
                 (run (mounted 3 false) [Click_next; Change_follow false]))
    by (apply reachable_run; constructor).
  split; [exact Hne | ]. split; [exact Hr | ]. split; [reflexivity | ].
  split; [exact (emitted_is_well_formed _ _ _ Click_next Hne Hr) | ].
  split; [exact Hv | ]. split; [reflexivity | ].
  exact (emitted_is_well_formed _ _ _ Click_reSync Hne Hv).
Defined.

Lemma open_channels_app (a b : list call) (opened : list string) :
  open_channels opened (a ++ b) = open_channels (open_channels opened a) b.
Proof.
  revert opened. induction a as [ | c a IH]; intros opened; [reflexivity | ].
  destruct c; cbn; apply IH.
Qed.

Lemma open_channels_quiet (calls : list call) (opened : list string) :
  (forall c, In c calls -> no_sub c = true) ->
  open_channels opened calls = opened.
Proof.
  induction calls as [ | c calls IH]; intros H; [reflexivity | ].
  assert (Hc : no_sub c = true) by (apply H; now left).
  assert (IH' : open_channels opened calls = opened)
    by (apply IH; intros x Hx; apply H; now right).
  destruct c; try discriminate; exact IH'.
Qed.

Lemma indexEffect_quiet (p : Props) (r : Render) (ref : option Channel)
  (c : call) : In c (indexEffect p r ref) -> no_sub c = true.
Proof.
  unfold indexEffect. destruct ref; [ | intros []].
  destruct (isPresenter p); [ | intros []]. intros [<- | []]. reflexivity.
Qed.

Lemma handle_quiet (st : Instance) (e : event) (c : call) :
  In c (handle st e) -> no_sub c = true.
Proof.
  assert (Hb : forall ref i, In c (broadcast ref i) -> no_sub c = true)
    by (intros [ch | ] i; [intros [<- | []]; reflexivity | intros []]).
  assert (Hnext : In c (next (props st) (state st) (channelRef st)) ->
                  no_sub c = true).
  { unfold next. intros [<- | Hin]; [reflexivity | ].
    destruct (isPresenter (props st)); [eapply Hb, Hin | destruct Hin]. }
  assert (Hprev : In c (prev (props st) (state st) (channelRef st)) ->
                  no_sub c = true).
  { unfold prev. intros [<- | Hin]; [reflexivity | ].
    destruct (isPresenter (props st)); [eapply Hb, Hin | destruct Hin]. }
  unfold handle.
  destruct e as [ | | | checked | k | payload | presence | status | rm pr];
    try assumption.
  - unfold reSync. destruct (liveFollow (state st)); [intros [] | ].
    destruct (channelRef st); cbn; intuition (subst; reflexivity).
  - intros [<- | []]. reflexivity.
  - destruct (isPresenter (props st)); [ | intros []].
    unfold onKey. rewrite in_app_iff. intros [Hin | Hin].
    + destruct (_ || _); [auto | destruct Hin].
    + destruct (_ || _); [auto | destruct Hin].
  - destruct (channelRef st) as [ch | ]; [ | intros []].
    unfold onBroadcast. destruct (negb (liveFollow (c_state ch))); [intros [] | ].
    destruct (negb (isNaN _)); [ | intros []]. intros [<- | []]. reflexivity.
  - destruct (channelRef st) as [ch | ]; [ | intros []].
    unfold onPresenceSync. destruct (isPresenter (c_props ch)); [intros [] | ].
    intros [<- | []]. reflexivity.
  - destruct (channelRef st) as [ch | ]; [ | intros []].
    unfold onStatus. destruct (status =? "SUBSCRIBED")%string; [ | intros []].
    intros [<- | Hin]; [reflexivity | ].
    destruct (isPresenter (c_props ch)); [ | destruct Hin].
    destruct Hin as [<- | []]. reflexivity.
  - intros [].
Qed.

Lemma emitted_quiet (st : Instance) (e : event) (c : call) :
  is_route e = false -> In c (emitted st e) -> no_sub c = true.
Proof.
  intros Er. rewrite emitted_unfold by exact Er. rewrite in_app_iff.
  intros [Hin | Hin].
  - unfold outgoing in Hin. apply filter_In in Hin.
    eapply handle_quiet, (proj1 Hin).
  - destruct (same _ _); [destruct Hin | eapply indexEffect_quiet, Hin].
Qed.

Lemma remove_one_only (t : string) : remove_one t [t] = [].
Proof. cbn. rewrite String.eqb_refl. reflexivity. Qed.

(** Along a run exactly the channel in [channelRef] is open. *)
Lemma trace_open (es : list event) (st : Instance) (channel : Channel) :
  channelRef st = Some channel ->
  exists channel',
    channelRef (run st es) = Some channel'
    /\ open_channels [topic channel] (trace st es) = [topic channel'].
Proof.
  revert st channel. induction es as [ | e es IH]; intros st ch Hch.
  - exists ch. split; [exact Hch | reflexivity].
  - cbn [run trace]. rewrite open_channels_app.
    destruct (is_route e) eqn:Er.
    + destruct e as [ | | | | | | | | rm pr]; try discriminate.
      unfold emitted, after. cbn [step]. unfold rerender. cbn [snd fst].
      rewrite Hch, open_channels_app.
      match goal with
      | |- context [open_channels ?o (if negb (Bool.eqb pr ?b) then ?x else [])] =>
          assert (Hq : open_channels o (if negb (Bool.eqb pr b) then x else []) = o)
            by (apply open_channels_quiet; intros c Hc;
                destruct (negb (Bool.eqb pr b));
                [eapply indexEffect_quiet, Hc | destruct Hc]);
          rewrite Hq; clear Hq
      end.
      destruct (negb (rm =? roomId (props st))%string
                || negb (Bool.eqb pr (isPresenter (props st)))) eqn:E.
      * cbn [closeChannel app open_channels].
        rewrite remove_one_only. apply IH. reflexivity.
      * cbn [app open_channels]. apply IH. reflexivity.
    + rewrite (open_channels_quiet (emitted st e))
        by (intros c; apply emitted_quiet, Er).
      apply IH. destruct (after_keeps st e Er) as (-> & _ & _). exact Hch.
Qed.

(** X12.  One channel at a time.  As long as no render throws, from the
    calls a component has made since it was mounted, through any events,
    exactly one channel is subscribed and not unsubscribed, the one of the
    current room: a change of room or role closes the old channel before
    the new one is opened.  Unmounting closes that last one. *)
Theorem one_channel_at_a_time (p : Props) (key : string) (es : list event) :
  alive (fst (mount p key)) es ->
  let st := run (fst (mount p key)) es in
  let calls := (snd (mount p key) ++ trace (fst (mount p key)) es)%list in
  open_channels [] calls = [("slides:" ++ roomId (props st))%string]
  /\ open_channels [] (calls ++ unmount st) = [].
Proof.
  intros Halive st calls.
  assert (Hr : reachable p key st) by (apply reachable_run; constructor).
  destruct (reachable_channel _ _ _ Hr) as (_ & ch & Hch & _ & Ht).
  destruct (trace_open es (fst (mount p key)) _ eq_refl) as (ch' & Hch' & Ho).
  fold st in Hch'. rewrite Hch in Hch'. inversion Hch'. subst ch'.
  assert (Hc : open_channels [] calls = [topic ch]).
  { unfold calls. rewrite open_channels_app.
    cbn [mount snd open_channels].
    rewrite (open_channels_quiet (indexEffect _ _ _))
      by (intros c; apply indexEffect_quiet).
    exact Ho. }
  split.
  - rewrite Hc, Ht. reflexivity.
  - rewrite open_channels_app, Hc. unfold unmount. rewrite Hch.
    cbn [closeChannel open_channels]. apply remove_one_only.
Qed.

Lemma one_channel_at_a_time_witness :
  let es := [Click_next; Route "other" true; Click_next;
             Broadcast (Some (VNumber 0)); Route "demo" true] in
  let st := run (mounted 3 false) es in
  let calls := (snd (mount (demo 3 false) "u_k3x9a2b")
                ++ trace (mounted 3 false) es)%list in
  alive (mounted 3 false) es
  /\ open_channels [] calls = ["slides:demo"%string]
  /\ open_channels [] (calls ++ unmount st) = [].
Proof.
  assert (H : alive (mounted 3 false)
                [Click_next; Route "other" true; Click_next;
                 Broadcast (Some (VNumber 0)); Route "demo" true])
    by (repeat split; discriminate).
  split; [exact H | ].
  exact (one_channel_at_a_time (demo 3 false) "u_k3x9a2b" _ H).
Defined.

End Protocol.

(** ** The render *)

Section Rendering.

Local Open Scope Q_scope.

Lemma is_integer_iff (q : Q) :
  is_integer q = true <-> exists z, q == inject_Z z.
Proof.
  unfold is_integer. rewrite Z.eqb_eq. split.
  - intros H. exists (Qnum q / Zpos (Qden q))%Z.
    unfold Qeq. cbn [Qnum Qden inject_Z].
    pose proof (Z_div_mod_eq_full (Qnum q) (Zpos (Qden q))) as E. lia.
  - intros [z E]. unfold Qeq in E. cbn [Qnum Qden inject_Z] in E.
    replace (Qnum q) with (z * Zpos (Qden q))%Z by lia.
    apply Z.mod_mul. discriminate.
Qed.

Lemma clamp_last (n : nat) :
  clamp n (inject_Z (Z.of_nat n) - 1) = Qmax 0 (inject_Z (Z.of_nat n) - 1).
Proof.
  unfold clamp. f_equal. unfold Qmin, GenericMinMax.gmin.
  rewrite (proj1 (Qeq_alt _ _) (Qeq_refl _)). reflexivity.
Qed.

Lemma clamp_integer (n : nat) (q : Q) :
  is_integer q = true -> is_integer (clamp n q) = true.
Proof.
  intros H.
  assert (H0 : is_integer 0 = true) by reflexivity.
  assert (HL : is_integer (inject_Z (Z.of_nat n) - 1) = true).
  { rewrite last_index_eq. unfold is_integer. cbn [Qnum Qden].
    rewrite Z.mod_1_r. reflexivity. }
  destruct (clamp_cases n q) as [(_ & _ & E) | [(_ & _ & E) | [(_ & _ & E) | (_ & _ & E)]]];
    rewrite E; assumption.
Qed.

Lemma bound_integral (p : Props) (i : number) :
  integral i -> integral (bound p i).
Proof.
  destruct i as [ | | q | ]; intros H.
  - exact I.
  - reflexivity.
  - rewrite bound_Fin. apply clamp_integer, H.
  - rewrite bound_PosInfinity, <- clamp_last. apply clamp_integer.
    rewrite last_index_eq. unfold is_integer. cbn [Qnum Qden].
    rewrite Z.mod_1_r. reflexivity.
Qed.

Lemma add_integral (i : number) (z : Z) :
  integral i -> integral (add i (Fin (inject_Z z))).
Proof.
  destruct i as [ | | q | ]; cbn [add]; try exact (fun _ => I).
  cbn [integral]. rewrite !is_integer_iff. intros [y E].
  exists (y + z)%Z. rewrite inject_Z_plus, E. reflexivity.
Qed.

Lemma latestIdx_integral (presence : PresenceState) :
  Forall (fun p => integral (index_or_zero p)) (presenters_of presence) ->
  integral (latestIdx presence).
Proof.
  intros H.
  destruct (latestIdx_spec presence) as [[_ ->] | (m & -> & Hin & _)];
    [reflexivity | ].
  apply in_map_iff in Hin. destruct Hin as (p & <- & Hp).
  rewrite Forall_forall in H. specialize (H p Hp).
  unfold index_or_zero in H. unfold read. destruct (p_index p); exact H || reflexivity.
Qed.

(** Every [setIndex] of a handler passes a whole number when the index
    and the payload of the event are whole. *)
Lemma handle_setIndex_integral (st : Instance) (e : event) (j : number) :
  integral (index (state st)) ->
  integral_event e ->
  In (setIndex j) (handle st e) ->
  integral j.
Proof.
  intros Hi He.
  assert (Hnext : In (setIndex j) (next (props st) (state st) (channelRef st))
                  -> integral j).
  { unfold next. intros [E | Hin].
    - inversion E. apply bound_integral. apply (add_integral _ 1), Hi.
    - destruct (isPresenter (props st)); [ | destruct Hin].
      elim (broadcast_no_setIndex _ _ _ Hin). }
  assert (Hprev : In (setIndex j) (prev (props st) (state st) (channelRef st))
                  -> integral j).
  { unfold prev. intros [E | Hin].
    - inversion E. apply bound_integral. apply (add_integral _ (-1)), Hi.
    - destruct (isPresenter (props st)); [ | destruct Hin].
      elim (broadcast_no_setIndex _ _ _ Hin). }
  unfold handle.
  destruct e as [ | | | checked | k | payload | presence | status | rm pr];
    try assumption.
  - unfold reSync. destruct (liveFollow (state st)), (channelRef st);
      cbn; intuition discriminate.
  - cbn. intuition discriminate.
  - destruct (isPresenter (props st)); [ | intros []].
    unfold onKey. rewrite in_app_iff. intros [Hin | Hin].
    + destruct (_ || _); [auto | destruct Hin].
    + destruct (_ || _); [auto | destruct Hin].
  - destruct (channelRef st) as [ch | ]; [ | intros []].
    unfold onBroadcast. destruct (negb (liveFollow (c_state ch))); [intros [] | ].
    destruct (negb (isNaN _)); [ | intros []].
    intros [E | []]. inversion E. apply bound_integral, He.
  - destruct (channelRef st) as [ch | ]; [ | intros []].
    unfold onPresenceSync. destruct (isPresenter (c_props ch)); [intros [] | ].
    intros [E | []]. inversion E. apply bound_integral, latestIdx_integral, He.
  - destruct (channelRef st) as [ch | ]; [ | intros []].
    unfold onStatus. destruct (status =? "SUBSCRIBED")%string,
      (isPresenter (c_props ch)); cbn; intuition discriminate.
  - intros [].
Qed.

Lemma run_integral (es : list event) (st : Instance) :
  integral (index (state st)) ->
  Forall integral_event es ->
  integral (index (state (run st es))).
Proof.
  revert st. induction es as [ | e es IH]; intros st Hi H; [exact Hi | ].
  inversion H as [ | ? ? He Hes]; subst. cbn [run]. apply IH; [ | exact Hes].
  rewrite after_state.
  destruct (reduce_index (handle st e) (state st)) as [E | Hin].
  - rewrite E. exact Hi.
  - eapply handle_setIndex_integral; eauto.
Qed.

(** A whole number of the slide range is the index of a slide. *)
Lemma array_index_in_range (n : nat) (q : Q) :
  is_integer q = true ->
  0 <= q <= inject_Z (Z.of_nat n) - 1 ->
  exists k, array_index (Fin q) = Some k /\ (k < n)%nat.
Proof.
  intros Hq [H0 HL]. pose proof Hq as Hq'.
  apply is_integer_iff in Hq'. destruct Hq' as [z E].
  assert (Hz : z = (Qnum q / Zpos (Qden q))%Z).
  { unfold Qeq in E. cbn [Qnum Qden inject_Z] in E.
    replace (Qnum q) with (z * Zpos (Qden q))%Z by lia.
    symmetry. apply Z.div_mul. discriminate. }
  assert (Hz0 : (0 <= z)%Z).
  { rewrite Zle_Qle. change (inject_Z 0) with 0. rewrite <- E. exact H0. }
  assert (HzL : (z <= Z.of_nat n - 1)%Z).
  { rewrite Zle_Qle. unfold Z.sub. rewrite inject_Z_plus, <- E. exact HL. }
  assert (Hnum : (0 <= Qnum q)%Z).
  { unfold Qle in H0. cbn [Qnum Qden] in H0. lia. }
  exists (Z.to_nat z). split; [ | lia].
  cbn [array_index]. rewrite Hq, (proj2 (Z.leb_le _ _) Hnum), <- Hz. reflexivity.
Qed.

(** X13.  The render finds its slide.  When the payloads that arrive carry
    whole numbers, every state reached from mount renders: with at least
    one slide the index is the position of a slide of the deck; the render
    shows the source of that slide, its alternative text when it has a
    non-empty one and ["Slide n"] otherwise, the counter [n/total], the
    room, the checkbox as the flag is and the re-sync button exactly when
    the flag is false.  With no slide at all every render fails on
    [slides[index].src]. *)
Theorem render_shows_the_current_slide (p : Props) (key : string)
  (es : list event) :
  Forall integral_event es ->
  let st := run (fst (mount p key)) es in
  (slides p <> [] ->
   exists k slide v,
     array_index (index (state st)) = Some k
     /\ nth_error (slides p) k = Some slide
     /\ render (props st) (state st) = Some v
     /\ v_room v = roomId (props st)
     /\ v_position v = (k + 1)%nat
     /\ v_total v = List.length (slides p)
     /\ v_checked v = liveFollow (state st)
     /\ v_reSync v = negb (liveFollow (state st))
     /\ v_src v = src slide
     /\ (forall a, alt slide = Some a -> a <> ""%string -> v_alt v = a)
     /\ (alt slide = None \/ alt slide = Some ""%string ->
         v_alt v = ("Slide " ++ decimal (k + 1)%nat)%string))
  /\ (slides p = [] -> render (props st) (state st) = None).
Proof.
  intros Hes st.
  assert (Hr : reachable p key st) by (apply reachable_run; constructor).
  destruct (reachable_attached _ _ _ Hr) as (Hs & _).
  split.
  - intros Hne.
    destruct (reachable_ranges _ _ _ Hne Hr) as (_ & (q & Hq & Hrange) & _).
    assert (Hi : integral (index (state st)))
      by (apply run_integral; [reflexivity | exact Hes]).
    rewrite Hq in Hi. cbn [integral] in Hi.
    destruct (array_index_in_range _ q Hi Hrange) as (k & Hk & Hlt).
    destruct (nth_error (slides p) k) as [slide | ] eqn:En;
      [ | apply nth_error_None in En; lia].
    exists k, slide. eexists. rewrite Hq.
    split; [exact Hk | ]. split; [exact En | ].
    split; [unfold render; rewrite Hq, Hk, Hs, En; reflexivity | ].
    cbn [v_room v_position v_total v_checked v_reSync v_src v_alt].
    repeat (split; [reflexivity | ]).
    unfold alt_text. split.
    + intros a Ha Hne'. rewrite Ha. destruct a; [congruence | reflexivity].
    + intros [Ha | Ha]; rewrite Ha; reflexivity.
  - intros Hnil. unfold render. rewrite Hs, Hnil.
    destruct (array_index _) as [[ | k] | ]; reflexivity.
Qed.

Lemma render_shows_the_current_slide_witness :
  let st0 := run (fst (mount talk "u_k3x9a2b")) [] in
  let st1 := run (fst (mount talk "u_k3x9a2b")) [Broadcast (Some (VString "1"))] in
  let st2 := run (fst (mount talk "u_k3x9a2b")) [Click_next; Click_next] in
  Forall integral_event [Broadcast (Some (VString "1"))]
  /\ slides talk <> []
  /\ (exists v, render (props st0) (state st0) = Some v
                /\ v_src v = "/slides/intro.png"%string
                /\ v_alt v = "Intro"%string /\ v_position v = 1%nat)
  /\ (exists v, render (props st1) (state st1) = Some v
                /\ v_src v = "/slides/plan.png"%string
                /\ v_alt v = "Slide 2"%string /\ v_position v = 2%nat)
  /\ (exists v, render (props st2) (state st2) = Some v
                /\ v_src v = "/slides/end.png"%string
                /\ v_alt v = "Slide 3"%string /\ v_position v = 3%nat).
Proof.
  assert (H0 : Forall integral_event []) by constructor.
  assert (H1 : Forall integral_event [Broadcast (Some (VString "1"))])
    by (repeat constructor).
  assert (H2 : Forall integral_event [Click_next; Click_next])
    by (repeat constructor).
  assert (Hne : slides talk <> []) by discriminate.
  split; [exact H1 | ]. split; [exact Hne | ]. split; [ | split].
  - destruct (proj1 (render_shows_the_current_slide talk "u_k3x9a2b" [] H0) Hne)
      as (k & slide & v & Hk & Hs & Hv & _ & Hp & _ & _ & _ & Hsrc & Ha & _).
    vm_compute in Hk. inversion Hk. subst k.
    vm_compute in Hs. inversion Hs. subst slide.
    exists v. split; [exact Hv | ]. split; [exact Hsrc | ].
    split; [apply Ha; [reflexivity | discriminate] | exact Hp].
  - destruct (proj1 (render_shows_the_current_slide talk "u_k3x9a2b" _ H1) Hne)
      as (k & slide & v & Hk & Hs & Hv & _ & Hp & _ & _ & _ & Hsrc & _ & Ha).
    vm_compute in Hk. inversion Hk. subst k.
    vm_compute in Hs. inversion Hs. subst slide.
    exists v. split; [exact Hv | ]. split; [exact Hsrc | ].
    split; [apply Ha; left; reflexivity | exact Hp].
  - destruct (proj1 (render_shows_the_current_slide talk "u_k3x9a2b" _ H2) Hne)
      as (k & slide & v & Hk & Hs & Hv & _ & Hp & _ & _ & _ & Hsrc & _ & Ha).
    vm_compute in Hk. inversion Hk. subst k.
    vm_compute in Hs. inversion Hs. subst slide.
    exists v. split; [exact Hv | ]. split; [exact Hsrc | ].
    split; [apply Ha; right; reflexivity | exact Hp].
Defined.

(** A non-empty deck and whole-number payloads keep every render of a run
    from throwing. *)
Lemma renders_when_integral (p : Props) (key : string) (st : Instance) :
  slides p <> [] ->
  reachable p key st ->
  integral (index (state st)) ->
  render (props st) (state st) <> None.
Proof.
  intros Hne Hr Hi.
  destruct (reachable_attached _ _ _ Hr) as (Hs & _).
  destruct (reachable_ranges _ _ _ Hne Hr) as (_ & (q & Hq & Hrange) & _).
  rewrite Hq in Hi. cbn [integral] in Hi.
  destruct (array_index_in_range _ q Hi Hrange) as (k & Hk & Hlt).
  unfold render. rewrite Hq, Hk, Hs.
  destruct (nth_error (slides p) k) eqn:En; [discriminate | ].
  apply nth_error_None in En. lia.
Qed.

Lemma alive_when_integral (p : Props) (key : string) (es : list event)
  (st : Instance) :
  slides p <> [] ->
  reachable p key st ->
  integral (index (state st)) ->
  Forall integral_event es ->
  alive st es.
Proof.
  intros Hne. revert st. induction es as [ | e es IH]; intros st Hr Hi Hes;
    (split; [apply (renders_when_integral p key); assumption | ]);
    [exact I | ].
  inversion Hes as [ | ? ? He Hes']; subst.
  apply IH; [constructor; exact Hr | | exact Hes'].
  apply (run_integral [e] st Hi). constructor; [exact He | constructor].
Qed.

End Rendering.

(** ** The presenter flag, whatever the capitals *)

Section Capitals.

Local Open Scope nat_scope.

Ltac boolnat :=
  repeat rewrite ?andb_true_iff, ?orb_true_iff, ?andb_false_iff,
    ?orb_false_iff, ?Nat.leb_le, ?Nat.leb_gt, ?Nat.eqb_eq, ?Nat.eqb_neq in *.

Lemma code_inj (a b : ascii) : code a = code b -> a = b.
Proof.
  unfold code. intros E.
  rewrite <- (ascii_nat_embedding a), <- (ascii_nat_embedding b), E.
  reflexivity.
Qed.

Lemma code_lower_upper (a : ascii) :
  between 65 90 (code a) = true -> code (lower_char a) = code a + 32.
Proof.
  intros H. unfold lower_char. rewrite H. unfold code at 1.
  apply nat_ascii_embedding. unfold between in H. boolnat. lia.
Qed.

Lemma lower_char_other (a : ascii) :
  between 65 90 (code a) = false -> lower_char a = a.
Proof. intros H. unfold lower_char. rewrite H. reflexivity. Qed.

(** A character is sent to the lowercase character [b] exactly when it is
    [b] up to the case of a letter. *)
Lemma lower_char_caseless (a b : ascii) :
  lower_char b = b ->
  lower_char a = b <-> caseless_char a b = true.
Proof.
  intros Hb.
  assert (Ub : between 65 90 (code b) = false).
  { destruct (between 65 90 (code b)) eqn:E; [ | reflexivity].
    pose proof (code_lower_upper b E) as H. rewrite Hb in H. lia. }
  unfold caseless_char, is_letter.
  destruct (between 65 90 (code a)) eqn:Ua.
  - pose proof (code_lower_upper a Ua) as Hc.
    unfold between in *. split.
    + intros E. rewrite E in Hc. boolnat. right. lia.
    + intros H. apply code_inj. rewrite Hc.
      destruct (Ascii.eqb a b) eqn:Eab.
      * apply Ascii.eqb_eq in Eab. subst b. rewrite Ua in Ub. discriminate.
      * cbn [orb] in H. boolnat. lia.
  - rewrite (lower_char_other a Ua). rewrite Ub. cbn [orb].
    unfold between in *. split.
    + intros ->. rewrite Ascii.eqb_refl. reflexivity.
    + destruct (Ascii.eqb a b) eqn:Eab;
        [intros _; apply Ascii.eqb_eq, Eab | ].
      cbn [orb]. intros H. boolnat. lia.
Qed.

Lemma toLowerCase_caseless (t s : string) :
  toLowerCase t = t ->
  toLowerCase s = t <-> caseless s t = true.
Proof.
  revert s. induction t as [ | b t IH]; intros s Ht.
  - destruct s; cbn; split; congruence.
  - cbn [toLowerCase] in Ht. inversion Ht as [[Hb Ht']].
    destruct s as [ | a s]; cbn [toLowerCase caseless]; [split; discriminate | ].
    rewrite Hb, Ht'.
    pose proof (lower_char_caseless a b Hb) as Hc.
    pose proof (IH s Ht') as Hs.
    rewrite andb_true_iff, <- Hc, <- Hs. split.
    + intros E. inversion E. now split.
    + intros [-> ->]. reflexivity.
Qed.

(** X14.  The presenter flag, whatever the capitals.  [isPresenter] is
    true exactly for the strings that read ["1"], ["true"] or ["yes"] when
    the case of letters is ignored (same length, same characters up to the
    case of an ASCII letter): no trimming, no other spelling. *)
Theorem isPresenter_any_capitalisation (presenter : option string) :
  Page.isPresenter presenter = true
  <-> exists s, presenter = Some s
                /\ (caseless s "1" = true \/ caseless s "true" = true
                    \/ caseless s "yes" = true).
Proof.
  assert (H : forall s,
             includes ["1"; "true"; "yes"]%string (toLowerCase s) = true
             <-> caseless s "1" = true \/ caseless s "true" = true
                 \/ caseless s "yes" = true).
  { intros s. unfold includes. cbn [existsb]. rewrite !orb_true_iff, !String.eqb_eq.
    rewrite <- !toLowerCase_caseless by reflexivity. intuition discriminate. }
  destruct presenter as [s | ]; cbn [Page.isPresenter].
  - rewrite H. split.
    + intros Hs. exists s. now split.
    + intros (s' & E & Hs). inversion E. subst. exact Hs.
  - split; [discriminate | intros (s & E & _); discriminate].
Qed.

End Capitals.

(** ** The order of the presence records *)

Section Order.

Local Open Scope Q_scope.

Lemma filter_Permutation {A : Type} (f : A -> bool) (l l' : list A) :
  Permutation l l' -> Permutation (filter f l) (filter f l').
Proof.
  induction 1 as [ | x l l' _ IH | x y l | l l' l'' _ IH1 _ IH2].
  - constructor.
  - cbn. destruct (f x); [constructor | ]; exact IH.
  - cbn. destruct (f x), (f y); try reflexivity. constructor.
  - etransitivity; eassumption.
Qed.

Lemma presenters_Permutation (s s' : PresenceState) :
  Permutation s s' -> Permutation (presenters_of s) (presenters_of s').
Proof.
  intros H. unfold presenters_of, flat, Object_values.
  apply filter_Permutation. rewrite <- !flat_map_concat_map.
  apply Permutation_flat_map, H.
Qed.

Lemma bound_same (p : Props) (i j : number) :
  same i j = true -> same (bound p i) (bound p j) = true.
Proof.
  destruct i as [ | | a | ], j as [ | | b | ]; try discriminate;
    try (intros _; apply same_refl).
  cbn [same]. intros E. apply Qeq_bool_iff in E.
  rewrite !bound_Fin. cbn [same]. apply Qeq_bool_iff, clamp_compat, E.
Qed.

Lemma latestIdx_same (s s' : PresenceState) :
  Permutation (presenters_of s) (presenters_of s') ->
  same (latestIdx s) (latestIdx s') = true.
Proof.
  intros H.
  destruct (latestIdx_spec s) as [[E ->] | (m & -> & Hin & Hub)];
    destruct (latestIdx_spec s') as [[E' ->] | (m' & -> & Hin' & Hub')].
  - reflexivity.
  - rewrite E in H. apply Permutation_nil in H. rewrite H in Hin'. destruct Hin'.
  - rewrite E' in H. apply Permutation_sym, Permutation_nil in H.
    rewrite H in Hin. destruct Hin.
  - cbn [same]. apply Qeq_bool_iff, Qle_antisym.
    + apply Hub'. eapply Permutation_in; [apply Permutation_map, H | exact Hin].
    + apply Hub. eapply Permutation_in;
        [apply Permutation_map, Permutation_sym, H | exact Hin'].
Qed.

(** X15.  The order of the presence records does not matter.  Two
    presence states whose presenter records are the same up to their
    order (in particular two states that list the same clients in another
    order) resolve to the same index: the presence-sync callback leaves a
    component on the same slide for both. *)
Theorem presence_order_does_not_matter (st : Instance)
  (s s' : PresenceState) :
  (Permutation s s' -> Permutation (presenters_of s) (presenters_of s'))
  /\ (Permutation (presenters_of s) (presenters_of s') ->
      same (latestIdx s) (latestIdx s') = true
      /\ same (index (state (after st (PresenceSync s))))
              (index (state (after st (PresenceSync s')))) = true).
Proof.
  split; [apply presenters_Permutation | ].
  intros H. pose proof (latestIdx_same s s' H) as E.
  split; [exact E | ].
  rewrite !after_state. unfold handle.
  destruct (channelRef st) as [ch | ]; [ | apply same_refl].
  unfold onPresenceSync.
  destruct (isPresenter (c_props ch)); [apply same_refl | ].
  cbn [reduce fold_left update index]. apply bound_same, E.
Qed.

Lemma presence_order_does_not_matter_witness :
  let s := [("u_a", [presenter_at 2]); ("u_b", [presenter_at 5; viewer_at 9])] in
  let s' := [("u_b", [presenter_at 5; viewer_at 9]); ("u_a", [presenter_at 2])] in
  Permutation s s'
  /\ same (index (state (after (mounted 8 false) (PresenceSync s))))
          (index (state (after (mounted 8 false) (PresenceSync s')))) = true.
Proof.
  assert (H : Permutation
                [("u_a", [presenter_at 2]); ("u_b", [presenter_at 5; viewer_at 9])]
                [("u_b", [presenter_at 5; viewer_at 9]); ("u_a", [presenter_at 2])])
    by constructor.
  split; [exact H | ].
  destruct (presence_order_does_not_matter (mounted 8 false)
              [("u_a", [presenter_at 2]); ("u_b", [presenter_at 5; viewer_at 9])]
              [("u_b", [presenter_at 5; viewer_at 9]); ("u_a", [presenter_at 2])])
    as [A B].
  exact (proj2 (B (A H))).
Defined.

End Order.

(** ** Changing room or role, and the presenter's presence *)

Section Resubscription.

Local Open Scope Q_scope.

(** X16.  The follow-live flag is read when the channel is opened.  When
    the room or the role changes the channel is opened again, with
    callbacks of the current render; the index and the flag are kept.  If
    the flag is false at that moment the new channel's broadcast callback
    drops every notification, and if it is true it applies every
    notification whose index is a number. *)
Theorem follow_flag_is_read_at_subscription (st : Instance) (rm : string)
  (pr : bool) (payload : Message) :
  rm <> roomId (props st) \/ pr <> isPresenter (props st) ->
  let st' := after st (Route rm pr) in
  let i := Number (nullish (payload_index payload) (VNumber 0)) in
  state st' = state st
  /\ channelRef st' = Some (openChannel (props st') (userKey st) (state st))
  /\ (liveFollow (state st) = false ->
      after st' (Broadcast payload) = st'
      /\ emitted st' (Broadcast payload) = [])
  /\ (liveFollow (state st) = true -> isNaN i = false ->
      index (state (after st' (Broadcast payload))) = bound (props st') i).
Proof.
  intros Hchg st' i.
  assert (E : (negb (rm =? roomId (props st))%string
               || negb (Bool.eqb pr (isPresenter (props st)))) = true).
  { apply orb_true_iff. destruct Hchg as [H | H].
    - left. apply negb_true_iff, String.eqb_neq, H.
    - right. apply negb_true_iff. destruct (Bool.eqb pr _) eqn:B; [ | reflexivity].
      apply Bool.eqb_prop in B. contradiction. }
  assert (Hc : channelRef st' = Some (openChannel (props st') (userKey st) (state st))).
  { unfold st', after. cbn [step]. unfold rerender. cbn [fst channelRef props].
    rewrite E. reflexivity. }
  split; [reflexivity | ]. split; [exact Hc | ]. split.
  - intros Hf. apply idle_step; [reflexivity | ].
    apply (broadcast_ignored st' _ payload Hc). exact Hf.
  - intros Hf Hn. rewrite after_state.
    rewrite (broadcast_applied st' _ payload Hc Hf Hn). reflexivity.
Qed.

Lemma follow_flag_is_read_at_subscription_witness :
  let st := run (mounted 5 false) [Click_next; Change_follow false] in
  let st' := after st (Route "other" false) in
  ("other"%string <> roomId (props st) \/ false <> isPresenter (props st))
  /\ liveFollow (state st) = false
  /\ index (state st') = Fin 1
  /\ after st' (Broadcast (Some (VNumber 3))) = st'.
Proof.
  assert (H : "other"%string
              <> roomId (props (run (mounted 5 false) [Click_next; Change_follow false]))
              \/ false <> isPresenter
                            (props (run (mounted 5 false) [Click_next; Change_follow false])))
    by (left; discriminate).
  pose proof (follow_flag_is_read_at_subscription
                (run (mounted 5 false) [Click_next; Change_follow false])
                "other" false (Some (VNumber 3)) H) as (_ & _ & A & _).
  split; [exact H | ]. split; [reflexivity | ]. split; [reflexivity | ].
  exact (proj1 (A eq_refl)).
Defined.

(** X17.  The presenter is not moved by presence.  On a presence-sync
    event a component whose role is presenter keeps its state and emits
    nothing, whatever the other clients report. *)
Theorem presenter_ignores_presence_sync (p : Props) (key : string)
  (st : Instance) (presence : PresenceState) :
  reachable p key st ->
  isPresenter (props st) = true ->
  after st (PresenceSync presence) = st
  /\ emitted st (PresenceSync presence) = [].
Proof.
  intros Hr Hp.
  destruct (reachable_attached _ _ _ Hr) as (_ & ch & Hch & Hc).
  apply idle_step; [reflexivity | ].
  unfold handle. rewrite Hch. unfold onPresenceSync. rewrite Hc, Hp.
  reflexivity.
Qed.

Lemma presenter_ignores_presence_sync_witness :
  let st := run (mounted 8 true) [Click_next] in
  reachable (demo 8 true) "u_k3x9a2b" st
  /\ isPresenter (props st) = true
  /\ after st (PresenceSync three_presenters) = st.
Proof.
  assert (Hr : reachable (demo 8 true) "u_k3x9a2b" (run (mounted 8 true) [Click_next]))
    by (apply reachable_run; constructor).
  split; [exact Hr | ]. split; [reflexivity | ].
  exact (proj1 (presenter_ignores_presence_sync _ _ _ three_presenters Hr eq_refl)).
Defined.

End Resubscription.
